(** * Momento: the post handlers of [convex/posts.ts]

    A shallow embedding of the Convex server functions of the post module
    ([generateUploadUrl], [createPost], [getFeedPosts], [toggleLike],
    [deletePost]) together with the part of the Convex runtime they call
    ([ctx.auth], [ctx.db], [ctx.storage]).

    Modelling decisions.
    - A document id is the allocation stamp handed out by [ctx.db.insert];
      every table is the list of its documents in creation order, so the
      default index order is the list order and [order("desc")] is its
      reverse.
    - A counter ([posts], [likes], [comments]) is a JavaScript number, a
      binary64 float.  The handlers only ever hold whole numbers in them,
      so a counter is carried as an integer and the rounding of binary64
      is written out ([Js.round]): [Js.add] and [Js.sub] are the [+] and
      [-] of the source on whole numbers.  On safe integers, those of
      magnitude below 2^53, they are the exact sum and difference.
    - A handler is a function from the world to an outcome and a world.  A
      [throw] stops the handler and keeps the world reached at that point,
      so "nothing was written before the failure" is a statement about the
      handler and not about the transactional rollback of the platform. *)

From Stdlib Require Import List String ZArith Arith Bool Lia.
From Stdlib Require Import Sorting.Sorted Sorting.Permutation.
From Stdlib Require Import Floats.SpecFloat.
Import ListNotations.

Local Open Scope string_scope.
Local Open Scope nat_scope.

(** ** Documents

    The schema file is not part of the sources; a document carries the
    fields the handlers of [posts.ts] read, write or index by. *)

Definition Id := nat.
Definition StorageId := nat.

Module User.
Record t := mk
  { _id : Id; clerkId : string; username : string; image : string;
    posts : Z }.
Definition set_posts (n : Z) (u : t) : t :=
  mk (_id u) (clerkId u) (username u) (image u) n.
End User.

Module Post.
Record t := mk
  { _id : Id; userId : Id; imageUrl : string; storageId : StorageId;
    caption : option string; likes : Z; comments : Z }.
Definition set_likes (n : Z) (p : t) : t :=
  mk (_id p) (userId p) (imageUrl p) (storageId p) (caption p) n
     (comments p).
End Post.

Module Like.
Record t := mk { _id : Id; userId : Id; postId : Id }.
End Like.

Module Bookmark.
Record t := mk { _id : Id; userId : Id; postId : Id }.
End Bookmark.

Module Comment.
Record t := mk { _id : Id; postId : Id }.
End Comment.

Module Notification.
Record t := mk
  { _id : Id; receiverId : Id; senderId : Id; type : string;
    postId : Id }.
End Notification.

Record UserIdentity := { subject : string }.

(** ** The world a handler runs in *)

Record World := mkWorld
  { auth : option UserIdentity;
    users : list User.t;
    posts : list Post.t;
    likes : list Like.t;
    comments : list Comment.t;
    bookmarks : list Bookmark.t;
    notifications : list Notification.t;
    storage : list (StorageId * string);
    next_id : Id;
    upload_url : string }.

Definition with_users (x : list User.t) (w : World) : World :=
  mkWorld (auth w) x (posts w) (likes w) (comments w) (bookmarks w)
          (notifications w) (storage w) (next_id w) (upload_url w).
Definition with_posts (x : list Post.t) (w : World) : World :=
  mkWorld (auth w) (users w) x (likes w) (comments w) (bookmarks w)
          (notifications w) (storage w) (next_id w) (upload_url w).
Definition with_likes (x : list Like.t) (w : World) : World :=
  mkWorld (auth w) (users w) (posts w) x (comments w) (bookmarks w)
          (notifications w) (storage w) (next_id w) (upload_url w).
Definition with_comments (x : list Comment.t) (w : World) : World :=
  mkWorld (auth w) (users w) (posts w) (likes w) x (bookmarks w)
          (notifications w) (storage w) (next_id w) (upload_url w).
Definition with_bookmarks (x : list Bookmark.t) (w : World) : World :=
  mkWorld (auth w) (users w) (posts w) (likes w) (comments w) x
          (notifications w) (storage w) (next_id w) (upload_url w).
Definition with_notifications (x : list Notification.t) (w : World)
  : World :=
  mkWorld (auth w) (users w) (posts w) (likes w) (comments w) (bookmarks w)
          x (storage w) (next_id w) (upload_url w).
Definition with_storage (x : list (StorageId * string)) (w : World)
  : World :=
  mkWorld (auth w) (users w) (posts w) (likes w) (comments w) (bookmarks w)
          (notifications w) x (next_id w) (upload_url w).
Definition with_next_id (x : Id) (w : World) : World :=
  mkWorld (auth w) (users w) (posts w) (likes w) (comments w) (bookmarks w)
          (notifications w) (storage w) x (upload_url w).

(** ** Handlers: state passing with thrown errors *)

Inductive Outcome (A : Type) : Type :=
| Returned (a : A)
| Thrown (msg : string).
Arguments Returned {A} a.
Arguments Thrown {A} msg.

Definition Handler (A : Type) : Type := World -> Outcome A * World.

Definition ret {A} (a : A) : Handler A := fun w => (Returned a, w).
Definition throw {A} (msg : string) : Handler A := fun w => (Thrown msg, w).
Definition bind {A B} (m : Handler A) (k : A -> Handler B) : Handler B :=
  fun w =>
    match m w with
    | (Returned a, w') => k a w'
    | (Thrown msg, w') => (Thrown msg, w')
    end.
Definition gets {A} (f : World -> A) : Handler A :=
  fun w => (Returned (f w), w).

Notation "x <- m ;; k" := (bind m (fun x => k))
  (at level 61, m at next level, right associativity).
Notation "m ;; k" := (bind m (fun _ => k))
  (at level 61, right associativity).

(** [for (const x of xs) await body(x)] *)
Fixpoint for_of {A} (xs : list A) (body : A -> Handler unit)
  : Handler unit :=
  match xs with
  | [] => ret tt
  | x :: rest => body x ;; for_of rest body
  end.

(** [await Promise.all(xs.map(async (x) => body(x)))] *)
Fixpoint promise_all_map {A B} (xs : list A) (body : A -> Handler B)
  : Handler (list B) :=
  match xs with
  | [] => ret []
  | x :: rest =>
      y <- body x ;;
      ys <- promise_all_map rest body ;;
      ret (y :: ys)
  end.

(** ** Tables *)

Section Rows.
Context {T : Type} (key : T -> Id).

Definition tbl_get (id : Id) (t : list T) : option T :=
  find (fun d => key d =? id) t.
Definition tbl_has (id : Id) (t : list T) : bool :=
  existsb (fun d => key d =? id) t.
Definition tbl_remove (id : Id) (t : list T) : list T :=
  filter (fun d => negb (key d =? id)) t.
Definition tbl_patch (id : Id) (f : T -> T) (t : list T) : list T :=
  map (fun d => if key d =? id then f d else d) t.
End Rows.

(** A table of the database: where its rows live in the world and which
    field is the document id. *)
Class Table (T : Type) : Type :=
  { rows : World -> list T;
    with_rows : list T -> World -> World;
    key : T -> Id }.

#[export] Instance users_table : Table User.t :=
  {| rows := users; with_rows := with_users; key := User._id |}.
#[export] Instance posts_table : Table Post.t :=
  {| rows := posts; with_rows := with_posts; key := Post._id |}.
#[export] Instance likes_table : Table Like.t :=
  {| rows := likes; with_rows := with_likes; key := Like._id |}.
#[export] Instance comments_table : Table Comment.t :=
  {| rows := comments; with_rows := with_comments; key := Comment._id |}.
#[export] Instance bookmarks_table : Table Bookmark.t :=
  {| rows := bookmarks; with_rows := with_bookmarks;
     key := Bookmark._id |}.
#[export] Instance notifications_table : Table Notification.t :=
  {| rows := notifications; with_rows := with_notifications;
     key := Notification._id |}.

(** ** The runtime: [ctx.auth], [ctx.db], [ctx.storage] *)

Definition auth_getUserIdentity : Handler (option UserIdentity) :=
  gets auth.

(** [ctx.db.insert(table, fields)]: the new document gets the next id and
    goes to the end of its table. *)
Definition db_insert (T : Type) `{Table T} (fields : Id -> T)
  : Handler Id :=
  fun w =>
    let id := next_id w in
    (Returned id, with_next_id (S id) (with_rows (rows w ++ [fields id]) w)).

(** [ctx.db.get(id)] *)
Definition db_get (T : Type) `{Table T} (id : Id) : Handler (option T) :=
  gets (fun w => tbl_get key id (rows w)).

(** [ctx.db.patch(id, fields)] fails on a document that does not exist. *)
Definition db_patch (T : Type) `{Table T} (id : Id) (f : T -> T)
  : Handler unit :=
  fun w =>
    if tbl_has key id (rows w)
    then (Returned tt, with_rows (tbl_patch key id f (rows w)) w)
    else (Thrown "Update on nonexistent document", w).

(** [ctx.db.delete(id)] fails on a document that does not exist. *)
Definition db_delete (T : Type) `{Table T} (id : Id) : Handler unit :=
  fun w =>
    if tbl_has key id (rows w)
    then (Returned tt, with_rows (tbl_remove key id (rows w)) w)
    else (Thrown "Delete on nonexistent document", w).

(** Index queries.  An index lists the matching documents in creation
    order; [first()] takes the head and [collect()] takes them all. *)
Definition users_by_clerk_id_first (clerkId : string)
  : Handler (option User.t) :=
  gets (fun w => find (fun u => String.eqb (User.clerkId u) clerkId)
                      (users w)).

Definition like_matches (userId postId : Id) (l : Like.t) : bool :=
  (Like.userId l =? userId) && (Like.postId l =? postId).
Definition bookmark_matches (userId postId : Id) (b : Bookmark.t) : bool :=
  (Bookmark.userId b =? userId) && (Bookmark.postId b =? postId).

Definition likes_by_user_and_post_first (userId postId : Id)
  : Handler (option Like.t) :=
  gets (fun w => find (like_matches userId postId) (likes w)).
Definition bookmarks_by_user_and_post_first (userId postId : Id)
  : Handler (option Bookmark.t) :=
  gets (fun w => find (bookmark_matches userId postId) (bookmarks w)).

Definition likes_by_post_collect (postId : Id) : Handler (list Like.t) :=
  gets (fun w => filter (fun l => Like.postId l =? postId) (likes w)).
Definition comments_by_post_collect (postId : Id)
  : Handler (list Comment.t) :=
  gets (fun w => filter (fun c => Comment.postId c =? postId) (comments w)).
Definition bookmarks_by_post_collect (postId : Id)
  : Handler (list Bookmark.t) :=
  gets (fun w => filter (fun b => Bookmark.postId b =? postId)
                        (bookmarks w)).

(** [ctx.db.query("posts").order("desc").collect()] *)
Definition posts_order_desc_collect : Handler (list Post.t) :=
  gets (fun w => rev (posts w)).

(** [ctx.storage]: a file is a storage id with its URL;
    [ctx.storage.delete(id)] fails on a file that does not exist. *)
Definition storage_lookup (sid : StorageId) (s : list (StorageId * string))
  : option string :=
  option_map snd (find (fun f => fst f =? sid) s).

Definition storage_generateUploadUrl : Handler string := gets upload_url.
Definition storage_getUrl (sid : StorageId) : Handler (option string) :=
  gets (fun w => storage_lookup sid (storage w)).
Definition storage_delete (sid : StorageId) : Handler unit :=
  fun w =>
    if existsb (fun f => fst f =? sid) (storage w)
    then (Returned tt,
          with_storage (filter (fun f => negb (fst f =? sid)) (storage w)) w)
    else (Thrown "File not found", w).

(** Modelled from the spec: [getAunthenticatedUser] is imported from
    [./users], which is not among the sources.  The spec describes every
    operation as "authenticate caller, look up related record(s) by index,
    ... or signal an Unauthorized / not found failure", which is the
    sequence [createPost] spells out inline: no identity throws
    "Unauthorized", no [users] document for the identity throws
    "User not found". *)
Definition getAunthenticatedUser : Handler User.t :=
  identity <- auth_getUserIdentity ;;
  match identity with
  | None => throw "Unauthorized"
  | Some identity =>
      currentUser <- users_by_clerk_id_first (subject identity) ;;
      match currentUser with
      | None => throw "User not found"
      | Some currentUser => ret currentUser
      end
  end.

(** ** JavaScript numbers that hold whole numbers *)

Module Js.
Definition two53 : Z := 9007199254740992.

(** [Number.isSafeInteger]: magnitude at most 2^53 - 1. *)
Definition safe (n : Z) : Prop := (- two53 < n < two53)%Z.

(** The binary64 float nearest to the integer [n], ties to the even
    mantissa.  Up to 2^53 every integer is a float; above, a float has 53
    significant bits, so the integers that are floats are [2^e] apart with
    [e = log2 |n| - 52].  Overflow to Infinity starts at magnitude 2^1024
    and is not written out: a counter moved by one at a time stays
    finite. *)
Definition round (n : Z) : Z :=
  let a := Z.abs n in
  if (a <=? two53)%Z then n
  else
    let e := (Z.log2 a - 52)%Z in
    let q := Z.shiftr a e in
    let r := (a - Z.shiftl q e)%Z in
    let half := Z.shiftl 1 (e - 1) in
    let q' := if (r <? half)%Z then q
              else if (half <? r)%Z then (q + 1)%Z
              else if Z.even q then q else (q + 1)%Z in
    (Z.sgn n * Z.shiftl q' e)%Z.

(** [a + b] and [a - b] on numbers that hold whole numbers. *)
Definition add (a b : Z) : Z := round (a + b).
Definition sub (a b : Z) : Z := round (a - b).

(** The same operations through the binary64 format of the Standard
    Library, to compare [round] with. *)
Definition to_binary64 (n : Z) : spec_float :=
  binary_normalize 53 1024 n 0 false.

Definition of_binary64 (f : spec_float) : option Z :=
  match f with
  | S754_zero _ => Some 0%Z
  | S754_finite s m e =>
      if (0 <=? e)%Z then Some (cond_Zopp s (Z.pos m) * 2 ^ e)%Z
      else if (Z.pos m mod 2 ^ (- e) =? 0)%Z
      then Some (cond_Zopp s (Z.pos m / 2 ^ (- e)))%Z
      else None
  | _ => None
  end.

Definition add64 (a b : Z) : option Z :=
  of_binary64 (SFadd 53 1024 (to_binary64 a) (to_binary64 b)).
Definition sub64 (a b : Z) : option Z :=
  of_binary64 (SFsub 53 1024 (to_binary64 a) (to_binary64 b)).

(** Whole numbers around the places where the spacing of the floats
    changes. *)
Definition probes : list Z :=
  (map (fun k => Z.of_nat k - 20) (seq 0 41)
   ++ map (fun k => two53 - 40 + Z.of_nat k) (seq 0 41)
   ++ map (fun k => two53 + 2 * Z.of_nat k) (seq 0 40)
   ++ map (fun k => - two53 - 40 + 2 * Z.of_nat k) (seq 0 21)
   ++ map (fun k => - two53 + Z.of_nat k) (seq 0 40)
   ++ map (fun k => 2 * two53 - 40 + 2 * Z.of_nat k) (seq 0 21)
   ++ map (fun k => 2 * two53 + 4 * Z.of_nat k) (seq 0 20)
   ++ [2 ^ 60; 2 ^ 100; 2 ^ 1023])%Z%list.
End Js.

(** ** The handlers of [convex/posts.ts] *)

Definition generateUploadUrl : Handler string :=
  identity <- auth_getUserIdentity ;;
  match identity with
  | None => throw "Unauthorized"
  | Some _ => storage_generateUploadUrl
  end.

Definition createPost (caption : option string) (storageId : StorageId)
  : Handler Id :=
  identity <- auth_getUserIdentity ;;
  match identity with
  | None => throw "Unauthorized"
  | Some identity =>
      currentUser <- users_by_clerk_id_first (subject identity) ;;
      match currentUser with
      | None => throw "User not found"
      | Some currentUser =>
          imageUrl <- storage_getUrl storageId ;;
          match imageUrl with
          | None => throw "Image not found"
          | Some imageUrl =>
              postId <- db_insert Post.t (fun id =>
                          Post.mk id (User._id currentUser) imageUrl
                                  storageId caption 0%Z 0%Z) ;;
              db_patch User.t (User._id currentUser)
                (User.set_posts (Js.add (User.posts currentUser) 1)) ;;
              ret postId
          end
      end
  end.

Module Author.
Record t := mk
  { _id : option Id; username : option string; image : option string }.
End Author.

Module FeedPost.
Record t := mk
  { post : Post.t; author : Author.t; isLiked : bool;
    isBookmarked : bool }.
End FeedPost.

(** [!!x] on a possibly missing document *)
Definition truthy {A} (x : option A) : bool :=
  match x with Some _ => true | None => false end.

Definition feed_entry (currentUser : User.t) (post : Post.t)
  : Handler FeedPost.t :=
  postAuthor <- db_get User.t (Post.userId post) ;;
  like <- likes_by_user_and_post_first (User._id currentUser)
            (Post._id post) ;;
  bookmark <- bookmarks_by_user_and_post_first (User._id currentUser)
                (Post._id post) ;;
  ret (FeedPost.mk post
         (Author.mk (option_map User._id postAuthor)
                    (option_map User.username postAuthor)
                    (option_map User.image postAuthor))
         (truthy like) (truthy bookmark)).

Definition getFeedPosts : Handler (list FeedPost.t) :=
  currentUser <- getAunthenticatedUser ;;
  posts <- posts_order_desc_collect ;;
  if List.length posts =? 0 then ret []
  else
    postsWithInfo <- promise_all_map posts (feed_entry currentUser) ;;
    ret postsWithInfo.

(** The [likes] counter is moved by one with the exact sum and
    difference, which are [Js.add] and [Js.sub] as long as the counter is
    a safe integer ([Js_add_safe], [Js_sub_safe]); beyond, the source
    rounds ([Js_add_at_two53]) and this definition does not. *)
Definition toggleLike (postId : Id) : Handler bool :=
  currentUser <- getAunthenticatedUser ;;
  existingLike <- likes_by_user_and_post_first (User._id currentUser)
                    postId ;;
  post <- db_get Post.t postId ;;
  match post with
  | None => throw "Post not found"
  | Some post =>
      match existingLike with
      | Some existingLike =>
          db_delete Like.t (Like._id existingLike) ;;
          db_patch Post.t postId (Post.set_likes (Post.likes post - 1)%Z) ;;
          ret false
      | None =>
          db_insert Like.t (fun id =>
            Like.mk id (User._id currentUser) postId) ;;
          db_patch Post.t postId (Post.set_likes (Post.likes post + 1)%Z) ;;
          (if negb (User._id currentUser =? Post.userId post)
           then db_insert Notification.t (fun id =>
                  Notification.mk id (Post.userId post)
                    (User._id currentUser) "like" postId) ;; ret tt
           else ret tt) ;;
          ret true
      end
  end.

Definition deletePost (postId : Id) : Handler unit :=
  currentUser <- getAunthenticatedUser ;;
  post <- db_get Post.t postId ;;
  match post with
  | None => throw "Post not found"
  | Some post =>
      if negb (Post.userId post =? User._id currentUser)
      then throw "Not authorized to delete this post"
      else
        likes <- likes_by_post_collect postId ;;
        for_of likes (fun like => db_delete Like.t (Like._id like)) ;;
        comments <- comments_by_post_collect postId ;;
        for_of comments
          (fun comment => db_delete Comment.t (Comment._id comment)) ;;
        bookmarks <- bookmarks_by_post_collect postId ;;
        for_of bookmarks
          (fun bookmark => db_delete Bookmark.t (Bookmark._id bookmark)) ;;
        storage_delete (Post.storageId post) ;;
        db_delete Post.t postId ;;
        db_patch User.t (User._id currentUser)
          (User.set_posts (Z.max 0 2))
  end.

(** ** Sample worlds *)

Module Sample.
Definition alice : User.t := User.mk 1 "clerk_alice" "alice" "a.png" 1.
Definition bob : User.t := User.mk 2 "clerk_bob" "bob" "b.png" 1.

Definition sunset : Post.t :=
  Post.mk 3 1 "https://img/7" 7 (Some "sunset") 1 1.
Definition harbour : Post.t := Post.mk 8 2 "https://img/9" 9 None 0 0.

(** Alice is signed in; Bob has liked, commented on and bookmarked
    Alice's post. *)
Definition world : World :=
  {| auth := Some {| subject := "clerk_alice" |};
     users := [alice; bob];
     posts := [sunset; harbour];
     likes := [Like.mk 4 2 3];
     comments := [Comment.mk 5 3];
     bookmarks := [Bookmark.mk 6 2 3];
     notifications := [];
     storage := [(7, "https://img/7"); (9, "https://img/9");
                 (10, "https://img/10")];
     next_id := 11;
     upload_url := "https://upload/1" |}.

Definition as_bob (w : World) : World :=
  mkWorld (Some {| subject := "clerk_bob" |}) (users w) (posts w)
          (likes w) (comments w) (bookmarks w) (notifications w)
          (storage w) (next_id w) (upload_url w).

Definition signed_out (w : World) : World :=
  mkWorld None (users w) (posts w) (likes w) (comments w) (bookmarks w)
          (notifications w) (storage w) (next_id w) (upload_url w).


(** [world] once Alice has deleted her post. *)
Definition deleted : World :=
  {| auth := Some {| subject := "clerk_alice" |};
     users := [User.set_posts 2 alice; bob];
     posts := [harbour];
     likes := []; comments := []; bookmarks := []; notifications := [];
     storage := [(9, "https://img/9"); (10, "https://img/10")];
     next_id := 11;
     upload_url := "https://upload/1" |}.

(** [world] where Alice's [posts] counter has reached 2^53. *)
Definition veteran : World :=
  with_users [User.set_posts 9007199254740992 alice; bob] world.

(** [world] with Bob signed in, once he has withdrawn his Like. *)
Definition unliked : World :=
  {| auth := Some {| subject := "clerk_bob" |};
     users := [alice; bob];
     posts := [Post.set_likes 0 sunset; harbour];
     likes := [];
     comments := [Comment.mk 5 3];
     bookmarks := [Bookmark.mk 6 2 3];
     notifications := [];
     storage := [(7, "https://img/7"); (9, "https://img/9");
                 (10, "https://img/10")];
     next_id := 11;
     upload_url := "https://upload/1" |}.
End Sample.

(** ** What the claims observe *)

(** The caller is signed in and has a [users] document. *)
Definition authenticated (u : User.t) (w : World) : Prop :=
  getAunthenticatedUser w = (Returned u, w).


Definition user_posts (userId : Id) (w : World) : option Z :=
  option_map User.posts (tbl_get User._id userId (users w)).

Definition like_exists (userId postId : Id) (w : World) : bool :=
  truthy (find (like_matches userId postId) (likes w)).



(** What the platform guarantees of a table: ids were handed out in
    creation order, one per document, all below the next id. *)
Definition ids_ok (n : Id) (ids : list Id) : Prop :=
  StronglySorted lt ids /\ Forall (fun i => i < n) ids.

Record wf (w : World) : Prop :=
  { wf_users : ids_ok (next_id w) (map User._id (users w));
    wf_posts : ids_ok (next_id w) (map Post._id (posts w));
    wf_likes : ids_ok (next_id w) (map Like._id (likes w));
    wf_comments : ids_ok (next_id w) (map Comment._id (comments w));
    wf_bookmarks : ids_ok (next_id w) (map Bookmark._id (bookmarks w));
    wf_notifications :
      ids_ok (next_id w) (map Notification._id (notifications w));
    wf_like_post :
      Forall (fun l => Like.postId l < next_id w) (likes w) }.

(** The caller holds at most one Like document for the post. *)
Definition at_most_one_like (userId postId : Id) (w : World) : Prop :=
  List.length (filter (like_matches userId postId) (likes w)) <= 1.

(** No caller holds two Like documents for one post. *)
Definition unique_likes (w : World) : Prop :=
  forall userId postId, at_most_one_like userId postId w.

(** The worlds [toggleLike] ends in. *)
Definition after_unlike (postId : Id) (existingLike : Like.t)
    (post : Post.t) (w : World) : World :=
  mkWorld (auth w) (users w)
    (tbl_patch Post._id postId (Post.set_likes (Post.likes post - 1)%Z)
               (posts w))
    (tbl_remove Like._id (Like._id existingLike) (likes w))
    (comments w) (bookmarks w) (notifications w) (storage w) (next_id w)
    (upload_url w).

Definition like_notification (id : Id) (currentUser : User.t)
    (postId : Id) (post : Post.t) : Notification.t :=
  Notification.mk id (Post.userId post) (User._id currentUser) "like"
    postId.

Definition after_like (postId : Id) (currentUser : User.t) (post : Post.t)
    (w : World) : World :=
  let own := User._id currentUser =? Post.userId post in
  mkWorld (auth w) (users w)
    (tbl_patch Post._id postId (Post.set_likes (Post.likes post + 1)%Z)
               (posts w))
    (likes w ++ [Like.mk (next_id w) (User._id currentUser) postId])
    (comments w) (bookmarks w)
    (if own then notifications w
     else notifications w
          ++ [like_notification (S (next_id w)) currentUser postId post])
    (storage w)
    (if own then S (next_id w) else S (S (next_id w)))
    (upload_url w).



(** The world [createPost] ends in. *)
Definition after_create (currentUser : User.t) (imageUrl : string)
    (storageId : StorageId) (caption : option string) (w : World) : World :=
  mkWorld (auth w)
    (tbl_patch User._id (User._id currentUser)
       (User.set_posts (Js.add (User.posts currentUser) 1)) (users w))
    (posts w ++ [Post.mk (next_id w) (User._id currentUser) imageUrl
                   storageId caption 0%Z 0%Z])
    (likes w) (comments w) (bookmarks w) (notifications w) (storage w)
    (S (next_id w)) (upload_url w).

(** The world [deletePost] ends in. *)
Definition after_delete (postId : Id) (currentUser : User.t)
    (post : Post.t) (w : World) : World :=
  mkWorld (auth w)
    (tbl_patch User._id (User._id currentUser) (User.set_posts (Z.max 0 2))
       (users w))
    (tbl_remove Post._id postId (posts w))
    (filter (fun l => negb (Like.postId l =? postId)) (likes w))
    (filter (fun c => negb (Comment.postId c =? postId)) (comments w))
    (filter (fun b => negb (Bookmark.postId b =? postId)) (bookmarks w))
    (notifications w)
    (filter (fun f => negb (fst f =? Post.storageId post)) (storage w))
    (next_id w) (upload_url w).

(** What [getFeedPosts] attaches to a post, read off the world. *)
Definition feed_entry_of (w : World) (currentUser : User.t) (post : Post.t)
  : FeedPost.t :=
  let postAuthor := tbl_get User._id (Post.userId post) (users w) in
  FeedPost.mk post
    (Author.mk (option_map User._id postAuthor)
               (option_map User.username postAuthor)
               (option_map User.image postAuthor))
    (truthy (find (like_matches (User._id currentUser) (Post._id post))
                  (likes w)))
    (truthy (find (bookmark_matches (User._id currentUser) (Post._id post))
                  (bookmarks w))).

(** Writing a table and reading it back. *)
Class TableLaws (T : Type) `{Table T} : Prop :=
  { rows_with_rows : forall x w, rows (with_rows x w) = x;
    with_rows_rows : forall w, with_rows (rows w) w = w;
    with_rows_with_rows :
      forall x y w, with_rows x (with_rows y w) = with_rows x w }.

(** Every Like, Comment and Bookmark references a post of the table. *)
Definition references_posts (w : World) : Prop :=
  Forall (fun l => tbl_has Post._id (Like.postId l) (posts w) = true)
         (likes w) /\
  Forall (fun c => tbl_has Post._id (Comment.postId c) (posts w) = true)
         (comments w) /\
  Forall (fun b => tbl_has Post._id (Bookmark.postId b) (posts w) = true)
         (bookmarks w).

(** ** Rows *)

Section RowsFacts.
Context {T : Type} (key : T -> Id).

Lemma tbl_get_some (id : Id) (t : list T) (d : T) :
  tbl_get key id t = Some d -> In d t /\ key d = id.
Proof.
  unfold tbl_get. intros H. apply find_some in H.
  destruct H as [Hin Hk]. apply Nat.eqb_eq in Hk. auto.
Qed.

Lemma tbl_has_in (d : T) (t : list T) :
  In d t -> tbl_has key (key d) t = true.
Proof.
  intros Hin. unfold tbl_has. apply existsb_exists.
  exists d. split; [assumption | apply Nat.eqb_refl].
Qed.

Lemma tbl_get_has (id : Id) (t : list T) (d : T) :
  tbl_get key id t = Some d -> tbl_has key id t = true.
Proof.
  intros H. apply tbl_get_some in H. destruct H as [Hin <-].
  now apply tbl_has_in.
Qed.

Lemma tbl_has_patch (id id' : Id) (f : T -> T) (t : list T) :
  (forall d, key (f d) = key d) ->
  tbl_has key id' (tbl_patch key id f t) = tbl_has key id' t.
Proof.
  intros Hf. unfold tbl_has, tbl_patch.
  induction t as [|d t IH]; simpl; [reflexivity|].
  rewrite IH. destruct (key d =? id); [rewrite Hf|]; reflexivity.
Qed.

Lemma tbl_get_patch_same (id : Id) (f : T -> T) (t : list T) :
  (forall d, key (f d) = key d) ->
  tbl_get key id (tbl_patch key id f t) = option_map f (tbl_get key id t).
Proof.
  intros Hf. unfold tbl_get, tbl_patch.
  induction t as [|d t IH]; simpl; [reflexivity|].
  destruct (key d =? id) eqn:E.
  - rewrite Hf, E. reflexivity.
  - rewrite E. exact IH.
Qed.

Lemma tbl_get_patch_other (id id' : Id) (f : T -> T) (t : list T) :
  (forall d, key (f d) = key d) -> id' <> id ->
  tbl_get key id' (tbl_patch key id f t) = tbl_get key id' t.
Proof.
  intros Hf Hne. unfold tbl_get, tbl_patch.
  induction t as [|d t IH]; simpl; [reflexivity|].
  destruct (key d =? id) eqn:E.
  - apply Nat.eqb_eq in E. rewrite Hf.
    replace (key d =? id') with false
      by (symmetry; apply Nat.eqb_neq; congruence).
    exact IH.
  - destruct (key d =? id'); [reflexivity | exact IH].
Qed.

Lemma tbl_get_remove_same (id : Id) (t : list T) :
  tbl_get key id (tbl_remove key id t) = None.
Proof.
  unfold tbl_get, tbl_remove.
  induction t as [|d t IH]; simpl; [reflexivity|].
  destruct (key d =? id) eqn:E; simpl; [|rewrite E]; exact IH.
Qed.

Lemma key_inj (t : list T) (a b : T) :
  NoDup (map key t) -> In a t -> In b t -> key a = key b -> a = b.
Proof.
  induction t as [|d t IH]; simpl; intros Hnd Ha Hb Hk; [contradiction|].
  inversion Hnd as [|? ? Hnotin Hnd']; subst.
  destruct Ha as [-> | Ha], Hb as [-> | Hb]; auto.
  - exfalso. apply Hnotin. rewrite Hk. now apply in_map.
  - exfalso. apply Hnotin. rewrite <- Hk. now apply in_map.
Qed.

Lemma tbl_get_in (t : list T) (d : T) :
  NoDup (map key t) -> In d t -> tbl_get key (key d) t = Some d.
Proof.
  intros Hnd Hin. destruct (tbl_get key (key d) t) as [d'|] eqn:E.
  - apply tbl_get_some in E. destruct E as [Hin' Hk].
    f_equal. eapply key_inj; eauto.
  - unfold tbl_get in E.
    apply (find_none _ _ E) in Hin. now rewrite Nat.eqb_refl in Hin.
Qed.
End RowsFacts.

Lemma find_none_filter {A} (f g : A -> bool) (l : list A) :
  find f l = None -> find f (filter g l) = None.
Proof.
  induction l as [|a l IH]; simpl; [reflexivity|].
  destruct (f a) eqn:E; [discriminate|]. intros H.
  destruct (g a); simpl; [rewrite E|]; auto.
Qed.

Lemma find_none_filter_nil {A} (f : A -> bool) (l : list A) :
  find f l = None <-> filter f l = [].
Proof.
  induction l as [|a l IH]; simpl; [tauto|].
  destruct (f a); [split; discriminate | exact IH].
Qed.

Lemma find_some_filter {A} (f : A -> bool) (l : list A) (a : A) :
  find f l = Some a -> exists rest, filter f l = a :: rest.
Proof.
  induction l as [|b l IH]; simpl; [discriminate|].
  destruct (f b).
  - intros [= ->]. eauto.
  - exact IH.
Qed.

Lemma find_app_none {A} (f : A -> bool) (l : list A) (a : A) :
  find f l = None -> f a = true -> find f (l ++ [a]) = Some a.
Proof.
  induction l as [|b l IH]; simpl; intros H Ha.
  - now rewrite Ha.
  - destruct (f b); [discriminate | auto].
Qed.

Lemma filter_filter {A} (f g : A -> bool) (l : list A) :
  filter f (filter g l) = filter (fun a => g a && f a) l.
Proof.
  induction l as [|a l IH]; simpl; [reflexivity|].
  destruct (g a); simpl; [destruct (f a)|]; rewrite IH; reflexivity.
Qed.

Lemma ids_ok_nodup (n : Id) (ids : list Id) : ids_ok n ids -> NoDup ids.
Proof.
  intros [Hs _]. induction Hs as [|i ids Hs IH Hall]; constructor; auto.
  intros Hin. rewrite Forall_forall in Hall.
  specialize (Hall _ Hin). lia.
Qed.

(** ** Authentication *)

Lemma getAunthenticatedUser_pure (w w' : World) (o : Outcome User.t) :
  getAunthenticatedUser w = (o, w') -> w' = w.
Proof.
  unfold getAunthenticatedUser, bind, auth_getUserIdentity,
    users_by_clerk_id_first, gets, ret, throw.
  destruct (auth w); [destruct (find _ _)|]; now intros [= _ <-].
Qed.

Lemma authenticated_inv (u : User.t) (w : World) :
  authenticated u w ->
  exists identity,
    auth w = Some identity /\
    find (fun x => String.eqb (User.clerkId x) (subject identity))
         (users w) = Some u.
Proof.
  unfold authenticated, getAunthenticatedUser, bind, auth_getUserIdentity,
    users_by_clerk_id_first, gets, ret, throw.
  destruct (auth w) as [i|]; [|discriminate].
  destruct (find _ _) as [u'|] eqn:E; [|discriminate].
  intros [= ->]. eauto.
Qed.

Lemma authenticated_in (u : User.t) (w : World) :
  authenticated u w -> In u (users w).
Proof.
  intros H. apply authenticated_inv in H. destruct H as (i & _ & Hf).
  now apply find_some in Hf.
Qed.

Lemma authenticated_frame (u : User.t) (w w' : World) :
  auth w' = auth w -> users w' = users w ->
  authenticated u w -> authenticated u w'.
Proof.
  intros Ha Hu H. apply authenticated_inv in H.
  destruct H as (i & Hi & Hf).
  unfold authenticated, getAunthenticatedUser, bind, auth_getUserIdentity,
    users_by_clerk_id_first, gets, ret, throw.
  now rewrite Ha, Hi, Hu, Hf.
Qed.

(** ** The sample worlds are database states *)

Ltac sample_ids := split; simpl; repeat (constructor; try lia).

Lemma sample_wf : wf Sample.world.
Proof. split; try sample_ids. simpl. repeat (constructor; try lia). Qed.





(** ** Numbers *)

Lemma Js_round_exact (n : Z) :
  (Z.abs n <= Js.two53)%Z -> Js.round n = n.
Proof.
  intros Hn. unfold Js.round.
  destruct (Z.leb_spec (Z.abs n) Js.two53) as [_|Hgt]; [reflexivity | lia].
Qed.

(** On a safe integer [+ 1] and [- 1] are exact. *)
Lemma Js_add_safe (n : Z) : Js.safe n -> Js.add n 1 = (n + 1)%Z.
Proof.
  unfold Js.safe, Js.add. intros Hn. apply Js_round_exact. lia.
Qed.

Lemma Js_sub_safe (n : Z) : Js.safe n -> Js.sub n 1 = (n - 1)%Z.
Proof.
  unfold Js.safe, Js.sub. intros Hn. apply Js_round_exact. lia.
Qed.

(** At 2^53 they are not: the next whole number is not a float. *)
Lemma Js_add_at_two53 :
  Js.add Js.two53 1 = Js.two53 /\
  Js.sub (Js.add Js.two53 1) 1 = (Js.two53 - 1)%Z.
Proof. split; reflexivity. Qed.

(** [Js.add] and [Js.sub] are the binary64 addition and subtraction of the
    Standard Library at every probe. *)
Lemma Js_agrees_with_binary64 :
  forallb (fun a => match Js.add64 a 1, Js.sub64 a 1 with
                    | Some x, Some y =>
                        ((x =? Js.add a 1) && (y =? Js.sub a 1))%Z
                    | _, _ => false
                    end) Js.probes = true.
Proof. vm_compute. reflexivity. Qed.

(** ** Failures come before the first write *)

Ltac unfold_runtime :=
  unfold bind, auth_getUserIdentity, users_by_clerk_id_first,
    likes_by_user_and_post_first, bookmarks_by_user_and_post_first,
    likes_by_post_collect, comments_by_post_collect,
    bookmarks_by_post_collect, posts_order_desc_collect,
    storage_generateUploadUrl, storage_getUrl, db_get, gets, ret, throw.

Tactic Notation "unfold_runtime" "in" hyp(H) :=
  unfold bind, auth_getUserIdentity, users_by_clerk_id_first,
    likes_by_user_and_post_first, bookmarks_by_user_and_post_first,
    likes_by_post_collect, comments_by_post_collect,
    bookmarks_by_post_collect, posts_order_desc_collect,
    storage_generateUploadUrl, storage_getUrl, db_get, gets, ret, throw
    in H.

(** C7.  Without a caller identity each of the four mutations throws
    "Unauthorized" and hands back the world it was given: no table, no
    stored file and no id counter has changed. *)
Theorem unauthenticated_mutations_throw
    (w : World) (caption : option string) (storageId : StorageId)
    (postId : Id) :
  auth w = None ->
  generateUploadUrl w = (Thrown "Unauthorized", w) /\
  createPost caption storageId w = (Thrown "Unauthorized", w) /\
  toggleLike postId w = (Thrown "Unauthorized", w) /\
  deletePost postId w = (Thrown "Unauthorized", w).
Proof.
  intros Hauth.
  unfold generateUploadUrl, createPost, toggleLike, deletePost,
    getAunthenticatedUser.
  unfold_runtime. rewrite Hauth. repeat split; reflexivity.
Qed.

Lemma unauthenticated_mutations_throw_witness :
  generateUploadUrl (Sample.signed_out Sample.world)
  = (Thrown "Unauthorized", Sample.signed_out Sample.world) /\
  createPost (Some "dusk") 10 (Sample.signed_out Sample.world)
  = (Thrown "Unauthorized", Sample.signed_out Sample.world) /\
  toggleLike 3 (Sample.signed_out Sample.world)
  = (Thrown "Unauthorized", Sample.signed_out Sample.world) /\
  deletePost 3 (Sample.signed_out Sample.world)
  = (Thrown "Unauthorized", Sample.signed_out Sample.world).
Proof.
  apply (unauthenticated_mutations_throw
           (Sample.signed_out Sample.world) (Some "dusk") 10 3).
  reflexivity.
Defined.

(** C10.  Whenever [createPost] throws, the message is one of
    "Unauthorized", "User not found", "Image not found" and the world is
    the one it was given: no post was inserted and no counter patched. *)
Theorem createPost_throws_unchanged
    (caption : option string) (storageId : StorageId) (w w' : World)
    (msg : string) :
  createPost caption storageId w = (Thrown msg, w') ->
  w' = w /\
  (msg = "Unauthorized" \/ msg = "User not found" \/
   msg = "Image not found").
Proof.
  unfold createPost. unfold_runtime.
  destruct (auth w) as [identity|]; [|intros [= <- <-]; auto].
  destruct (find _ (users w)) as [u|] eqn:Hu; [|intros [= <- <-]; auto].
  destruct (storage_lookup storageId (storage w)) as [url|];
    [|intros [= <- <-]; auto].
  unfold db_insert, db_patch. simpl.
  apply find_some in Hu. destruct Hu as [Hin _].
  rewrite (tbl_has_in User._id u (users w) Hin). discriminate.
Qed.

Lemma createPost_throws_unchanged_witness :
  createPost (Some "dusk") 42 Sample.world
  = (Thrown "Image not found", Sample.world) /\
  Sample.world = Sample.world /\
  ("Image not found" = "Unauthorized" \/
   "Image not found" = "User not found" \/
   "Image not found" = "Image not found").
Proof.
  split; [reflexivity|].
  apply (createPost_throws_unchanged (Some "dusk") 42 Sample.world).
  reflexivity.
Defined.

Lemma deletePost_not_owner_run
    (w : World) (u : User.t) (postId : Id) (post : Post.t) :
  authenticated u w ->
  tbl_get Post._id postId (posts w) = Some post ->
  Post.userId post <> User._id u ->
  deletePost postId w = (Thrown "Not authorized to delete this post", w).
Proof.
  intros Hauth Hpost Hne.
  unfold deletePost, bind at 1. rewrite Hauth.
  unfold_runtime. simpl. rewrite Hpost.
  apply Nat.eqb_neq in Hne. rewrite Hne. reflexivity.
Qed.

(** C6.  A signed-in caller who does not own the post gets
    "Not authorized to delete this post", and the world is untouched: no
    document and no stored file is deleted or modified. *)
Theorem deletePost_not_owner
    (w : World) (u : User.t) (postId : Id) (post : Post.t) :
  authenticated u w ->
  tbl_get Post._id postId (posts w) = Some post ->
  Post.userId post <> User._id u ->
  deletePost postId w = (Thrown "Not authorized to delete this post", w).
Proof. exact (deletePost_not_owner_run w u postId post). Qed.

Lemma deletePost_not_owner_witness :
  deletePost 3 (Sample.as_bob Sample.world)
  = (Thrown "Not authorized to delete this post",
     Sample.as_bob Sample.world).
Proof.
  apply (deletePost_not_owner (Sample.as_bob Sample.world) Sample.bob 3
           Sample.sunset).
  - reflexivity.
  - reflexivity.
  - simpl. lia.
Defined.

(** ** toggleLike *)

Lemma toggleLike_unlike_run
    (w : World) (u : User.t) (postId : Id) (post : Post.t) (e : Like.t) :
  authenticated u w ->
  tbl_get Post._id postId (posts w) = Some post ->
  find (like_matches (User._id u) postId) (likes w) = Some e ->
  toggleLike postId w = (Returned false, after_unlike postId e post w).
Proof.
  intros Hauth Hpost He.
  unfold toggleLike, bind at 1. rewrite Hauth.
  unfold_runtime. simpl. rewrite He, Hpost.
  unfold db_delete, db_patch. simpl.
  apply find_some in He. destruct He as [Hin _].
  rewrite (tbl_has_in Like._id e (likes w) Hin). simpl.
  rewrite (tbl_get_has Post._id postId (posts w) post Hpost).
  reflexivity.
Qed.

Lemma toggleLike_like_run
    (w : World) (u : User.t) (postId : Id) (post : Post.t) :
  authenticated u w ->
  tbl_get Post._id postId (posts w) = Some post ->
  find (like_matches (User._id u) postId) (likes w) = None ->
  toggleLike postId w = (Returned true, after_like postId u post w).
Proof.
  intros Hauth Hpost He.
  unfold toggleLike, bind at 1. rewrite Hauth.
  unfold_runtime. simpl. rewrite He, Hpost.
  unfold db_insert, db_patch. simpl.
  rewrite (tbl_get_has Post._id postId (posts w) post Hpost).
  unfold after_like, like_notification.
  destruct (User._id u =? Post.userId post); reflexivity.
Qed.

(** C9.  With a signed-in caller and an existing post, [toggleLike]
    returns [false], deletes the caller's Like and leaves the notifications
    alone when a Like exists; otherwise it returns [true], inserts a Like,
    and appends exactly one "like" notification (receiver the post's
    owner, sender the caller) when the caller is not the owner, and none
    when the caller is. *)
Theorem toggleLike_notification
    (w : World) (u : User.t) (postId : Id) (post : Post.t) :
  authenticated u w ->
  tbl_get Post._id postId (posts w) = Some post ->
  exists w',
    match find (like_matches (User._id u) postId) (likes w) with
    | Some existingLike =>
        toggleLike postId w = (Returned false, w') /\
        likes w' = tbl_remove Like._id (Like._id existingLike) (likes w) /\
        notifications w' = notifications w
    | None =>
        toggleLike postId w = (Returned true, w') /\
        likes w'
        = (likes w ++ [Like.mk (next_id w) (User._id u) postId])%list /\
        notifications w'
        = if User._id u =? Post.userId post
          then notifications w
          else (notifications w
                ++ [Notification.mk (S (next_id w)) (Post.userId post)
                      (User._id u) "like" postId])%list
    end.
Proof.
  intros Hauth Hpost.
  destruct (find (like_matches (User._id u) postId) (likes w)) as [e|] eqn:He.
  - exists (after_unlike postId e post w). repeat split.
    now apply (toggleLike_unlike_run w u).
  - exists (after_like postId u post w). repeat split.
    now apply toggleLike_like_run.
Qed.

Lemma toggleLike_notification_witness :
  exists w',
    toggleLike 8 Sample.world = (Returned true, w') /\
    likes w' = [Like.mk 4 2 3; Like.mk 11 1 8] /\
    notifications w' = [Notification.mk 12 2 1 "like" 8].
Proof.
  apply (toggleLike_notification Sample.world Sample.alice 8 Sample.harbour);
    reflexivity.
Defined.

Lemma like_matches_new (userId postId id : Id) :
  like_matches userId postId (Like.mk id userId postId) = true.
Proof. unfold like_matches. simpl. now rewrite !Nat.eqb_refl. Qed.

Lemma post_likes_patch (postId : Id) (n : Z) (ps : list Post.t) (p : Post.t) :
  tbl_get Post._id postId ps = Some p ->
  tbl_get Post._id postId (tbl_patch Post._id postId (Post.set_likes n) ps)
  = Some (Post.set_likes n p).
Proof.
  intros H. rewrite tbl_get_patch_same by reflexivity. now rewrite H.
Qed.




(** ** Cascading deletes *)

#[export] Instance likes_laws : TableLaws Like.t.
Proof. split; intros; try destruct w; reflexivity. Qed.
#[export] Instance comments_laws : TableLaws Comment.t.
Proof. split; intros; try destruct w; reflexivity. Qed.
#[export] Instance bookmarks_laws : TableLaws Bookmark.t.
Proof. split; intros; try destruct w; reflexivity. Qed.

Lemma bind_returned {A B} (m : Handler A) (k : A -> Handler B)
    (w w' : World) (a : A) :
  m w = (Returned a, w') -> bind m k w = k a w'.
Proof. intros H. unfold bind. now rewrite H. Qed.

Lemma bind_thrown {A B} (m : Handler A) (k : A -> Handler B)
    (w w' : World) (msg : string) :
  m w = (Thrown msg, w') -> bind m k w = (Thrown msg, w').
Proof. intros H. unfold bind. now rewrite H. Qed.

Lemma bind_gets {A B} (f : World -> A) (k : A -> Handler B) (w : World) :
  bind (gets f) k w = k (f w) w.
Proof. reflexivity. Qed.

Lemma filter_all {A} (xs : list A) : filter (fun _ => true) xs = xs.
Proof. induction xs as [|a xs IH]; simpl; [|rewrite IH]; reflexivity. Qed.

Section Cascade.
Context {T : Type} `{TableLaws T}.

Lemma tbl_has_remove_other (id id' : Id) (t : list T) :
  id' <> id ->
  tbl_has key id' (tbl_remove key id t) = tbl_has key id' t.
Proof.
  intros Hne. unfold tbl_has, tbl_remove.
  induction t as [|d t IH]; simpl; [reflexivity|].
  destruct (key d =? id) eqn:E; simpl.
  - apply Nat.eqb_eq in E.
    replace (key d =? id') with false
      by (symmetry; apply Nat.eqb_neq; congruence).
    exact IH.
  - now rewrite IH.
Qed.

(** Deleting the documents [xs] one by one removes exactly the rows that
    carry one of their ids. *)
Lemma for_of_delete_run (xs : list T) (w : World) :
  NoDup (map key xs) ->
  (forall x, In x xs -> tbl_has key (key x) (rows w) = true) ->
  for_of xs (fun d => db_delete T (key d)) w
  = (Returned tt,
     with_rows
       (filter (fun d => negb (existsb (fun x => key x =? key d) xs))
               (rows w)) w).
Proof.
  revert w. induction xs as [|x xs IH]; intros w Hnd Hin; simpl.
  - unfold ret. now rewrite filter_all, with_rows_rows.
  - inversion Hnd as [|? ? Hnotin Hnd']; subst.
    assert (Hx : db_delete T (key x) w
                 = (Returned tt,
                    with_rows (tbl_remove key (key x) (rows w)) w)).
    { unfold db_delete. rewrite Hin by (now left). reflexivity. }
    rewrite (bind_returned _ _ _ _ _ Hx).
    rewrite IH; [|assumption|].
    + rewrite rows_with_rows, with_rows_with_rows. f_equal. f_equal.
      unfold tbl_remove. rewrite filter_filter.
      apply filter_ext. intros d.
      rewrite (Nat.eqb_sym (key x) (key d)).
      now rewrite negb_orb.
    + intros x' Hx'. rewrite rows_with_rows.
      rewrite tbl_has_remove_other; [apply Hin; now right|].
      intros Heq. apply Hnotin. rewrite <- Heq. now apply in_map.
Qed.

(** With one id per row, removing the ids of the rows selected by [p]
    removes the rows selected by [p]. *)
Lemma filter_by_selected_ids (p : T -> bool) (t : list T) :
  NoDup (map key t) ->
  filter (fun d => negb (existsb (fun x => key x =? key d) (filter p t))) t
  = filter (fun d => negb (p d)) t.
Proof.
  intros Hnd. apply filter_ext_in. intros d Hd. f_equal.
  destruct (p d) eqn:Hp.
  - apply existsb_exists. exists d. split.
    + apply filter_In. auto.
    + apply Nat.eqb_refl.
  - apply not_true_is_false. intros Hex.
    apply existsb_exists in Hex. destruct Hex as (x & Hx & Hk).
    apply filter_In in Hx. destruct Hx as [Hx Hpx].
    apply Nat.eqb_eq in Hk.
    assert (x = d) by (eapply (key_inj key); eauto).
    congruence.
Qed.

(** The rows selected by [p] still carry one id each. *)
Lemma selected_ids_nodup (p : T -> bool) (t : list T) :
  NoDup (map key t) -> NoDup (map key (filter p t)).
Proof.
  intros Hnd. induction t as [|d t IH]; simpl; [constructor|].
  inversion Hnd as [|? ? Hnotin Hnd']; subst.
  destruct (p d); simpl; auto.
  constructor; auto.
  intros Hin. apply Hnotin.
  apply in_map_iff in Hin. destruct Hin as (x & Hx & Hin).
  apply filter_In in Hin. rewrite <- Hx. apply in_map. tauto.
Qed.

Lemma cascade_run (p : T -> bool) (w : World) :
  NoDup (map key (rows w)) ->
  for_of (filter p (rows w)) (fun d => db_delete T (key d)) w
  = (Returned tt, with_rows (filter (fun d => negb (p d)) (rows w)) w).
Proof.
  intros Hnd. rewrite for_of_delete_run.
  - now rewrite filter_by_selected_ids.
  - now apply selected_ids_nodup.
  - intros x Hx. apply filter_In in Hx. apply tbl_has_in. tauto.
Qed.
End Cascade.

(** ** deletePost *)

Lemma wf_likes_nodup (w : World) : wf w -> NoDup (map Like._id (likes w)).
Proof. intros Hwf. exact (ids_ok_nodup _ _ (wf_likes w Hwf)). Qed.
Lemma wf_comments_nodup (w : World) :
  wf w -> NoDup (map Comment._id (comments w)).
Proof. intros Hwf. exact (ids_ok_nodup _ _ (wf_comments w Hwf)). Qed.
Lemma wf_bookmarks_nodup (w : World) :
  wf w -> NoDup (map Bookmark._id (bookmarks w)).
Proof. intros Hwf. exact (ids_ok_nodup _ _ (wf_bookmarks w Hwf)). Qed.
Lemma wf_posts_nodup (w : World) : wf w -> NoDup (map Post._id (posts w)).
Proof. intros Hwf. exact (ids_ok_nodup _ _ (wf_posts w Hwf)). Qed.
Lemma wf_users_nodup (w : World) : wf w -> NoDup (map User._id (users w)).
Proof. intros Hwf. exact (ids_ok_nodup _ _ (wf_users w Hwf)). Qed.

Lemma storage_lookup_exists (sid : StorageId) (s : list (StorageId * string)) :
  existsb (fun f => fst f =? sid) s = true <-> storage_lookup sid s <> None.
Proof.
  unfold storage_lookup.
  induction s as [|f s IH]; simpl; [split; [discriminate | congruence]|].
  destruct (_ =? sid); simpl; [|exact IH].
  split; [intros _ [=] | reflexivity].
Qed.

Lemma storage_lookup_deleted (sid : StorageId)
    (s : list (StorageId * string)) :
  storage_lookup sid (filter (fun f => negb (fst f =? sid)) s) = None.
Proof.
  unfold storage_lookup.
  induction s as [|f s IH]; simpl; [reflexivity|].
  destruct (_ =? sid) eqn:E; simpl; [|rewrite E]; exact IH.
Qed.

(** The world once the three cascade loops are through. *)
Lemma deletePost_owner_loops
    (w : World) (u : User.t) (postId : Id) (post : Post.t) :
  wf w ->
  authenticated u w ->
  tbl_get Post._id postId (posts w) = Some post ->
  Post.userId post = User._id u ->
  deletePost postId w
  = (storage_delete (Post.storageId post) ;;
     db_delete Post.t postId ;;
     db_patch User.t (User._id u) (User.set_posts (Z.max 0 2)))
      (with_bookmarks
         (filter (fun b => negb (Bookmark.postId b =? postId)) (bookmarks w))
         (with_comments
            (filter (fun c => negb (Comment.postId c =? postId))
                    (comments w))
            (with_likes
               (filter (fun l => negb (Like.postId l =? postId)) (likes w))
               w))).
Proof.
  intros Hwf Hauth Hpost Hown.
  unfold deletePost. rewrite (bind_returned _ _ _ _ _ Hauth).
  unfold db_get at 1. rewrite bind_gets. cbn [rows key posts_table].
  rewrite Hpost, Hown, Nat.eqb_refl. cbn [negb].
  unfold likes_by_post_collect. rewrite bind_gets.
  rewrite (bind_returned _ _ _ _ _
             (@cascade_run Like.t likes_table likes_laws
                (fun l => Like.postId l =? postId) w
                (wf_likes_nodup w Hwf))).
  unfold comments_by_post_collect. rewrite bind_gets.
  cbn [rows with_rows likes_table].
  change (comments (with_likes _ w)) with (comments w).
  match goal with |- bind _ _ ?w1 = _ =>
    rewrite (bind_returned _ _ _ _ _
               (@cascade_run Comment.t comments_table comments_laws
                  (fun c => Comment.postId c =? postId) w1
                  (wf_comments_nodup w Hwf)))
  end.
  unfold bookmarks_by_post_collect. rewrite bind_gets.
  cbn [rows with_rows comments_table].
  change (bookmarks (with_comments _ (with_likes _ w))) with (bookmarks w).
  match goal with |- bind _ _ ?w1 = _ =>
    rewrite (bind_returned _ _ _ _ _
               (@cascade_run Bookmark.t bookmarks_table bookmarks_laws
                  (fun b => Bookmark.postId b =? postId) w1
                  (wf_bookmarks_nodup w Hwf)))
  end.
  reflexivity.
Qed.

Lemma deletePost_owner_run
    (w : World) (u : User.t) (postId : Id) (post : Post.t) :
  wf w ->
  authenticated u w ->
  tbl_get Post._id postId (posts w) = Some post ->
  Post.userId post = User._id u ->
  storage_lookup (Post.storageId post) (storage w) <> None ->
  deletePost postId w = (Returned tt, after_delete postId u post w).
Proof.
  intros Hwf Hauth Hpost Hown Hfile.
  rewrite (deletePost_owner_loops w u postId post); try assumption.
  apply storage_lookup_exists in Hfile.
  unfold bind, storage_delete, db_delete, db_patch. simpl.
  rewrite Hfile. simpl.
  rewrite (tbl_get_has Post._id postId (posts w) post Hpost). simpl.
  rewrite (tbl_has_in User._id u (users w) (authenticated_in u w Hauth)).
  reflexivity.
Qed.

(** Every [deletePost] call that returns was made by the owner of an
    existing post whose file was in storage, and ends in [after_delete]. *)
Lemma deletePost_returned_inv (w w' : World) (postId : Id) :
  wf w ->
  deletePost postId w = (Returned tt, w') ->
  exists u post,
    authenticated u w /\
    tbl_get Post._id postId (posts w) = Some post /\
    Post.userId post = User._id u /\
    storage_lookup (Post.storageId post) (storage w) <> None /\
    w' = after_delete postId u post w.
Proof.
  intros Hwf Hrun.
  destruct (getAunthenticatedUser w) as [[u|msg] w0] eqn:Hauth.
  2:{ unfold deletePost in Hrun.
      rewrite (bind_thrown _ _ _ _ _ Hauth) in Hrun. discriminate. }
  assert (w0 = w) by (eapply getAunthenticatedUser_pure; eauto). subst w0.
  destruct (tbl_get Post._id postId (posts w)) as [post|] eqn:Hpost.
  2:{ unfold deletePost in Hrun.
      rewrite (bind_returned _ _ _ _ _ Hauth) in Hrun.
      unfold db_get in Hrun. rewrite bind_gets in Hrun.
      cbn [rows key posts_table] in Hrun. rewrite Hpost in Hrun.
      discriminate. }
  destruct (Nat.eq_dec (Post.userId post) (User._id u)) as [Hown|Hne].
  2:{ rewrite (deletePost_not_owner_run w u postId post Hauth Hpost Hne)
        in Hrun.
      discriminate. }
  destruct (existsb (fun f => fst f =? Post.storageId post) (storage w))
    eqn:Hfile.
  - apply storage_lookup_exists in Hfile.
    rewrite (deletePost_owner_run w u postId post) in Hrun by assumption.
    injection Hrun as <-. exists u, post. auto.
  - rewrite (deletePost_owner_loops w u postId post) in Hrun by assumption.
    unfold bind at 1, storage_delete in Hrun. simpl in Hrun.
    rewrite Hfile in Hrun. discriminate.
Qed.


Lemma authenticated_unique (u u' : User.t) (w : World) :
  authenticated u w -> authenticated u' w -> u = u'.
Proof. unfold authenticated. congruence. Qed.



(** C4.  For the owner of an existing post whose file is in storage,
    [deletePost] returns and leaves the acting user's [posts] counter at
    [Math.max(0, 2)], that is 2, whatever the counter was; and this is so
    of every [deletePost] call that returns. *)
Theorem deletePost_posts_counter
    (w : World) (u : User.t) (postId : Id) :
  wf w ->
  authenticated u w ->
  (forall post,
      tbl_get Post._id postId (posts w) = Some post ->
      Post.userId post = User._id u ->
      storage_lookup (Post.storageId post) (storage w) <> None ->
      exists w',
        deletePost postId w = (Returned tt, w') /\
        user_posts (User._id u) w' = Some 2%Z) /\
  (forall w',
      deletePost postId w = (Returned tt, w') ->
      user_posts (User._id u) w' = Some 2%Z).
Proof.
  intros Hwf Hauth.
  assert (Hcounter : forall post,
             user_posts (User._id u) (after_delete postId u post w)
             = Some 2%Z).
  { intros post. unfold user_posts, after_delete. cbn [users].
    rewrite tbl_get_patch_same by reflexivity.
    rewrite (tbl_get_in User._id (users w) u
               (wf_users_nodup w Hwf) (authenticated_in u w Hauth)).
    reflexivity. }
  split.
  - intros post Hpost Hown Hfile.
    exists (after_delete postId u post w). split.
    + now apply deletePost_owner_run.
    + apply Hcounter.
  - intros w' Hrun.
    destruct (deletePost_returned_inv w w' postId Hwf Hrun)
      as (u' & post & Hauth' & _ & _ & _ & ->).
    rewrite <- (authenticated_unique u u' w Hauth Hauth').
    apply Hcounter.
Qed.

Lemma deletePost_posts_counter_witness :
  user_posts 1 Sample.world = Some 1%Z /\
  exists w',
    deletePost 3 Sample.world = (Returned tt, w') /\
    user_posts 1 w' = Some 2%Z.
Proof.
  split; [reflexivity|].
  destruct (deletePost_posts_counter Sample.world Sample.alice 3
              sample_wf eq_refl) as [Htotal _].
  apply (Htotal Sample.sunset).
  - reflexivity.
  - reflexivity.
  - discriminate.
Defined.

(** ** createPost *)

Lemma createPost_run
    (w : World) (identity : UserIdentity) (u : User.t)
    (caption : option string) (storageId : StorageId) (url : string) :
  auth w = Some identity ->
  find (fun x => String.eqb (User.clerkId x) (subject identity)) (users w)
  = Some u ->
  storage_lookup storageId (storage w) = Some url ->
  createPost caption storageId w
  = (Returned (next_id w), after_create u url storageId caption w).
Proof.
  intros Hid Hu Hurl.
  unfold createPost. unfold_runtime. rewrite Hid, Hu, Hurl.
  unfold db_insert, db_patch. simpl.
  apply find_some in Hu. destruct Hu as [Hin _].
  rewrite (tbl_has_in User._id u (users w) Hin). reflexivity.
Qed.

Lemma createPost_returned_inv
    (w w' : World) (caption : option string) (storageId : StorageId)
    (postId : Id) :
  createPost caption storageId w = (Returned postId, w') ->
  exists identity u url,
    auth w = Some identity /\
    find (fun x => String.eqb (User.clerkId x) (subject identity)) (users w)
    = Some u /\
    storage_lookup storageId (storage w) = Some url /\
    postId = next_id w /\
    w' = after_create u url storageId caption w.
Proof.
  intros Hrun.
  destruct (auth w) as [identity|] eqn:Hid.
  2:{ unfold createPost in Hrun. unfold_runtime in Hrun.
      rewrite Hid in Hrun. discriminate. }
  destruct (find (fun x => String.eqb (User.clerkId x) (subject identity))
                 (users w)) as [u|] eqn:Hu.
  2:{ unfold createPost in Hrun. unfold_runtime in Hrun.
      rewrite Hid, Hu in Hrun. discriminate. }
  destruct (storage_lookup storageId (storage w)) as [url|] eqn:Hurl.
  2:{ unfold createPost in Hrun. unfold_runtime in Hrun.
      rewrite Hid, Hu, Hurl in Hrun. discriminate. }
  rewrite (createPost_run w identity u caption storageId url Hid Hu Hurl)
    in Hrun.
  injection Hrun as <- <-. exists identity, u, url. auto.
Qed.

Lemma tbl_get_fresh {T} (key : T -> Id) (n : Id) (t : list T) :
  Forall (fun i => i < n) (map key t) -> tbl_get key n t = None.
Proof.
  intros Hall. unfold tbl_get.
  destruct (find (fun d => key d =? n) t) as [d|] eqn:E; [|reflexivity].
  apply find_some in E. destruct E as [Hin Hk]. apply Nat.eqb_eq in Hk.
  rewrite Forall_forall in Hall.
  specialize (Hall (key d) (in_map key t d Hin)). lia.
Qed.

(** C3, as the code has it.  For a signed-in caller with a [users]
    document whose [posts] counter is a safe integer, and a storage id
    that has a URL, [createPost] returns; it appends exactly one post,
    under an id no post had, with [likes] and [comments] 0, and the
    caller's [posts] counter goes from its value to that value plus one,
    no other user's counter changing. *)
Theorem createPost_inserts
    (w : World) (identity : UserIdentity) (u : User.t)
    (caption : option string) (storageId : StorageId) (url : string) :
  wf w ->
  auth w = Some identity ->
  find (fun x => String.eqb (User.clerkId x) (subject identity)) (users w)
  = Some u ->
  storage_lookup storageId (storage w) = Some url ->
  Js.safe (User.posts u) ->
  exists w',
    createPost caption storageId w = (Returned (next_id w), w') /\
    tbl_get Post._id (next_id w) (posts w) = None /\
    posts w'
    = (posts w
       ++ [Post.mk (next_id w) (User._id u) url storageId caption 0 0])%list /\
    user_posts (User._id u) w = Some (User.posts u) /\
    user_posts (User._id u) w' = Some (User.posts u + 1)%Z /\
    (forall other, other <> User._id u ->
                   user_posts other w' = user_posts other w).
Proof.
  intros Hwf Hid Hu Hurl Hsafe.
  exists (after_create u url storageId caption w).
  assert (Hget : tbl_get User._id (User._id u) (users w) = Some u).
  { apply tbl_get_in; [now apply wf_users_nodup|].
    now apply find_some in Hu. }
  repeat split.
  - now apply (createPost_run w identity).
  - apply tbl_get_fresh. exact (proj2 (wf_posts w Hwf)).
  - unfold user_posts. now rewrite Hget.
  - unfold user_posts, after_create. cbn [users].
    rewrite tbl_get_patch_same by reflexivity. rewrite Hget.
    cbn [option_map User.set_posts User.posts].
    now rewrite (Js_add_safe _ Hsafe).
  - intros other Hother. unfold user_posts, after_create. cbn [users].
    now rewrite tbl_get_patch_other by (reflexivity || exact Hother).
Qed.

Lemma createPost_inserts_witness :
  exists w',
    createPost (Some "dusk") 10 Sample.world = (Returned 11, w') /\
    tbl_get Post._id 11 (posts Sample.world) = None /\
    posts w'
    = [Sample.sunset; Sample.harbour;
       Post.mk 11 1 "https://img/10" 10 (Some "dusk") 0 0] /\
    user_posts 1 Sample.world = Some 1%Z /\
    user_posts 1 w' = Some 2%Z /\
    (forall other, other <> 1 ->
                   user_posts other w' = user_posts other Sample.world).
Proof.
  apply (createPost_inserts Sample.world {| subject := "clerk_alice" |}
           Sample.alice (Some "dusk") 10 "https://img/10").
  - exact sample_wf.
  - reflexivity.
  - reflexivity.
  - reflexivity.
  - unfold Js.safe, Js.two53. simpl. lia.
Defined.

Lemma sample_veteran_wf : wf Sample.veteran.
Proof. split; try sample_ids. simpl. repeat (constructor; try lia). Qed.

(** C3, as stated, fails where the caller's [posts] counter is 2^53:
    [createPost] returns and inserts the post, but 2^53 + 1 is not a
    binary64 float and the patch writes 2^53 back, so the counter is not
    incremented. *)
Lemma createPost_counter_at_two53 :
  wf Sample.veteran /\
  auth Sample.veteran = Some {| subject := "clerk_alice" |} /\
  storage_lookup 10 (storage Sample.veteran) = Some "https://img/10" /\
  user_posts 1 Sample.veteran = Some 9007199254740992%Z /\
  exists w',
    createPost (Some "dusk") 10 Sample.veteran = (Returned 11, w') /\
    tbl_get Post._id 11 (posts w')
    = Some (Post.mk 11 1 "https://img/10" 10 (Some "dusk") 0 0) /\
    user_posts 1 w' = Some 9007199254740992%Z /\
    user_posts 1 w' <> Some (9007199254740992 + 1)%Z.
Proof.
  split; [exact sample_veteran_wf|].
  split; [reflexivity|]. split; [reflexivity|]. split; [reflexivity|].
  eexists. split; [reflexivity|].
  split; [reflexivity|]. split; [reflexivity | discriminate].
Qed.

(** ** The likes counter mirrors the Like documents *)

Lemma toggleLike_returned_inv (w w' : World) (postId : Id) (r : bool) :
  toggleLike postId w = (Returned r, w') ->
  exists u post,
    authenticated u w /\
    tbl_get Post._id postId (posts w) = Some post /\
    ((exists e,
        find (like_matches (User._id u) postId) (likes w) = Some e /\
        r = false /\ w' = after_unlike postId e post w) \/
     (find (like_matches (User._id u) postId) (likes w) = None /\
      r = true /\ w' = after_like postId u post w)).
Proof.
  intros Hrun.
  destruct (getAunthenticatedUser w) as [[u|msg] w0] eqn:Hauth.
  2:{ unfold toggleLike in Hrun.
      rewrite (bind_thrown _ _ _ _ _ Hauth) in Hrun. discriminate. }
  assert (w0 = w) by (eapply getAunthenticatedUser_pure; eauto). subst w0.
  destruct (tbl_get Post._id postId (posts w)) as [post|] eqn:Hpost.
  2:{ unfold toggleLike in Hrun.
      rewrite (bind_returned _ _ _ _ _ Hauth) in Hrun.
      unfold likes_by_user_and_post_first, db_get in Hrun.
      rewrite !bind_gets in Hrun.
      cbn [rows key posts_table] in Hrun. rewrite Hpost in Hrun.
      discriminate. }
  exists u, post. split; [exact Hauth|]. split; [reflexivity|].
  destruct (find (like_matches (User._id u) postId) (likes w)) as [e|] eqn:He.
  - rewrite (toggleLike_unlike_run w u postId post e Hauth Hpost He) in Hrun.
    injection Hrun as <- <-. left. eauto.
  - rewrite (toggleLike_like_run w u postId post Hauth Hpost He) in Hrun.
    injection Hrun as <- <-. right. auto.
Qed.

Section Counting.
Context {T : Type} (key : T -> Id).

Lemma tbl_remove_absent (id : Id) (t : list T) :
  ~ In id (map key t) -> tbl_remove key id t = t.
Proof.
  unfold tbl_remove. induction t as [|d t IH]; simpl; intros Hnotin;
    [reflexivity|].
  destruct (key d =? id) eqn:E.
  - apply Nat.eqb_eq in E. exfalso. auto.
  - simpl. f_equal. apply IH. tauto.
Qed.

(** Removing a document by id removes one row, the document itself. *)
Lemma count_remove (p : T -> bool) (e : T) (t : list T) :
  NoDup (map key t) -> In e t ->
  List.length (filter p t)
  = List.length (filter p (tbl_remove key (key e) t))
    + (if p e then 1 else 0).
Proof.
  induction t as [|d t IH]; simpl; intros Hnd Hin; [contradiction|].
  inversion Hnd as [|? ? Hnotin Hnd']; subst.
  destruct Hin as [-> | Hin].
  - rewrite Nat.eqb_refl. simpl.
    rewrite (tbl_remove_absent (key e) t Hnotin).
    destruct (p e); simpl; lia.
  - assert (Hne : (key d =? key e) = false).
    { apply Nat.eqb_neq. intros Heq. apply Hnotin. rewrite Heq.
      now apply in_map. }
    rewrite Hne. simpl. specialize (IH Hnd' Hin).
    destruct (p d); simpl; lia.
Qed.
End Counting.

Lemma like_matches_post (userId postId : Id) (l : Like.t) :
  like_matches userId postId l = true -> Like.postId l = postId.
Proof.
  unfold like_matches. intros H. apply andb_prop in H.
  now apply Nat.eqb_eq.
Qed.







(** ** getFeedPosts *)

Lemma feed_entry_run (u : User.t) (p : Post.t) (w : World) :
  feed_entry u p w = (Returned (feed_entry_of w u p), w).
Proof. reflexivity. Qed.

Lemma promise_all_map_feed (u : User.t) (ps : list Post.t) (w : World) :
  promise_all_map ps (feed_entry u) w
  = (Returned (map (feed_entry_of w u) ps), w).
Proof.
  induction ps as [|p ps IH]; cbn [promise_all_map map]; [reflexivity|].
  rewrite (bind_returned _ _ _ _ _ (feed_entry_run u p w)).
  now rewrite (bind_returned _ _ _ _ _ IH).
Qed.

Lemma getFeedPosts_run (u : User.t) (w : World) :
  authenticated u w ->
  getFeedPosts w = (Returned (map (feed_entry_of w u) (rev (posts w))), w).
Proof.
  intros Hauth. unfold getFeedPosts.
  rewrite (bind_returned _ _ _ _ _ Hauth).
  unfold posts_order_desc_collect. rewrite bind_gets.
  destruct (rev (posts w)) as [|p ps] eqn:E; [reflexivity|].
  cbn [List.length Nat.eqb].
  now rewrite (bind_returned _ _ _ _ _ (promise_all_map_feed u (p :: ps) w)).
Qed.

Lemma StronglySorted_snoc {A} (R : A -> A -> Prop) (l : list A) (a : A) :
  StronglySorted R l -> Forall (fun x => R x a) l ->
  StronglySorted R (l ++ [a]).
Proof.
  induction 1 as [|x l Hs IH Hx]; intros Hall; simpl.
  - constructor; constructor.
  - inversion Hall; subst. constructor; [auto|].
    apply Forall_app. split; [exact Hx | constructor; auto].
Qed.

Lemma StronglySorted_rev_lt (l : list nat) :
  StronglySorted lt l -> StronglySorted gt (rev l).
Proof.
  induction 1 as [|x l Hs IH Hx]; simpl; [constructor|].
  apply StronglySorted_snoc; [exact IH|].
  apply Forall_rev. revert Hx. apply Forall_impl. intros; lia.
Qed.

(** C8.  For a signed-in caller [getFeedPosts] returns without writing;
    the posts behind the returned entries are the whole [posts] table,
    each post once, newest first: the table reversed, hence in strictly
    descending creation stamp. *)
Theorem getFeedPosts_newest_first (u : User.t) (w : World) :
  wf w ->
  authenticated u w ->
  exists feed,
    getFeedPosts w = (Returned feed, w) /\
    map FeedPost.post feed = rev (posts w) /\
    Permutation (map FeedPost.post feed) (posts w) /\
    StronglySorted gt (map (fun e => Post._id (FeedPost.post e)) feed).
Proof.
  intros Hwf Hauth.
  exists (map (feed_entry_of w u) (rev (posts w))).
  assert (Hposts : map FeedPost.post (map (feed_entry_of w u) (rev (posts w)))
                   = rev (posts w)).
  { rewrite map_map. simpl. apply map_id. }
  repeat split.
  - now apply getFeedPosts_run.
  - exact Hposts.
  - rewrite Hposts. apply Permutation_sym, Permutation_rev.
  - rewrite map_map. simpl. rewrite map_rev.
    apply StronglySorted_rev_lt. exact (proj1 (wf_posts w Hwf)).
Qed.

Lemma getFeedPosts_newest_first_witness :
  exists feed,
    getFeedPosts Sample.world = (Returned feed, Sample.world) /\
    map FeedPost.post feed = [Sample.harbour; Sample.sunset] /\
    Permutation (map FeedPost.post feed) [Sample.sunset; Sample.harbour] /\
    StronglySorted gt (map (fun e => Post._id (FeedPost.post e)) feed).
Proof.
  apply (getFeedPosts_newest_first Sample.alice Sample.world).
  - exact sample_wf.
  - reflexivity.
Defined.

(** ** The platform guarantees are kept *)

Lemma ids_ok_mono (n m : Id) (ids : list Id) :
  n <= m -> ids_ok n ids -> ids_ok m ids.
Proof.
  intros Hle [Hs Hall]. split; [exact Hs|].
  revert Hall. apply Forall_impl. intros; lia.
Qed.

Lemma ids_ok_snoc (n : Id) (ids : list Id) :
  ids_ok n ids -> ids_ok (S n) (ids ++ [n]).
Proof.
  intros [Hs Hall]. split.
  - now apply StronglySorted_snoc.
  - apply Forall_app. split.
    + revert Hall. apply Forall_impl. intros; lia.
    + constructor; [lia | constructor].
Qed.

Lemma StronglySorted_filter_map {A} (key : A -> Id) (p : A -> bool)
    (t : list A) :
  StronglySorted lt (map key t) -> StronglySorted lt (map key (filter p t)).
Proof.
  induction t as [|d t IH]; simpl; intros Hs; [constructor|].
  inversion Hs as [|? ? Hs' Hall]; subst.
  destruct (p d); simpl; [|auto].
  constructor; [auto|].
  rewrite Forall_forall in *. intros i Hi. apply Hall.
  apply in_map_iff in Hi. destruct Hi as (x & <- & Hx).
  apply filter_In in Hx. apply in_map. tauto.
Qed.

Lemma ids_ok_filter {A} (key : A -> Id) (p : A -> bool) (n : Id)
    (t : list A) :
  ids_ok n (map key t) -> ids_ok n (map key (filter p t)).
Proof.
  intros [Hs Hall]. split; [now apply StronglySorted_filter_map|].
  rewrite Forall_forall in *. intros i Hi. apply Hall.
  apply in_map_iff in Hi. destruct Hi as (x & <- & Hx).
  apply filter_In in Hx. apply in_map. tauto.
Qed.

Lemma map_key_patch {A} (key : A -> Id) (id : Id) (f : A -> A)
    (t : list A) :
  (forall d, key (f d) = key d) ->
  map key (tbl_patch key id f t) = map key t.
Proof.
  intros Hf. unfold tbl_patch. rewrite map_map. apply map_ext.
  intros d. destruct (key d =? id); [apply Hf | reflexivity].
Qed.

Lemma wf_after_create
    (w : World) (u : User.t) (url : string) (storageId : StorageId)
    (caption : option string) :
  wf w -> wf (after_create u url storageId caption w).
Proof.
  intros [Hu Hp Hl Hc Hb Hn Hlp].
  split; unfold after_create; cbn [users posts likes comments bookmarks
                                   notifications next_id].
  - rewrite map_key_patch by reflexivity.
    apply (ids_ok_mono (next_id w)); [lia | exact Hu].
  - rewrite map_app. cbn [map Post._id]. now apply ids_ok_snoc.
  - apply (ids_ok_mono (next_id w)); [lia | exact Hl].
  - apply (ids_ok_mono (next_id w)); [lia | exact Hc].
  - apply (ids_ok_mono (next_id w)); [lia | exact Hb].
  - apply (ids_ok_mono (next_id w)); [lia | exact Hn].
  - revert Hlp. apply Forall_impl. intros; lia.
Qed.

Lemma wf_after_unlike
    (w : World) (postId : Id) (e : Like.t) (post : Post.t) :
  wf w -> wf (after_unlike postId e post w).
Proof.
  intros [Hu Hp Hl Hc Hb Hn Hlp].
  split; unfold after_unlike; cbn [users posts likes comments bookmarks
                                   notifications next_id];
    try assumption.
  - now rewrite map_key_patch by reflexivity.
  - now apply ids_ok_filter.
  - unfold tbl_remove. rewrite Forall_forall in *. intros l Hin.
    apply filter_In in Hin. apply Hlp. tauto.
Qed.

Lemma wf_after_like
    (w : World) (postId : Id) (u : User.t) (post : Post.t) :
  wf w ->
  tbl_get Post._id postId (posts w) = Some post ->
  wf (after_like postId u post w).
Proof.
  intros [Hu Hp Hl Hc Hb Hn Hlp] Hpost.
  assert (Hlt : postId < next_id w).
  { apply tbl_get_some in Hpost. destruct Hpost as [Hin <-].
    destruct Hp as [_ Hall]. rewrite Forall_forall in Hall.
    apply Hall. now apply in_map. }
  split; unfold after_like; cbn [users posts likes comments bookmarks
                                 notifications next_id].
  - destruct (_ =? _);
      (eapply ids_ok_mono; [|exact Hu]); lia.
  - rewrite map_key_patch by reflexivity.
    destruct (_ =? _); (eapply ids_ok_mono; [|exact Hp]); lia.
  - rewrite map_app. cbn [map Like._id].
    destruct (_ =? _);
      (eapply ids_ok_mono; [|apply ids_ok_snoc; exact Hl]); lia.
  - destruct (_ =? _); (eapply ids_ok_mono; [|exact Hc]); lia.
  - destruct (_ =? _); (eapply ids_ok_mono; [|exact Hb]); lia.
  - destruct (_ =? _).
    + eapply ids_ok_mono; [|exact Hn]. lia.
    + rewrite map_app. cbn [map Notification._id like_notification].
      apply (ids_ok_snoc (S (next_id w))).
      eapply ids_ok_mono; [|exact Hn]. lia.
  - apply Forall_app. split.
    + revert Hlp. apply Forall_impl. intros l Hl'.
      destruct (_ =? _); lia.
    + constructor; [|constructor]. cbn [Like.postId].
      destruct (_ =? _); lia.
Qed.

Lemma wf_after_delete
    (w : World) (postId : Id) (u : User.t) (post : Post.t) :
  wf w -> wf (after_delete postId u post w).
Proof.
  intros [Hu Hp Hl Hc Hb Hn Hlp].
  split; unfold after_delete; cbn [users posts likes comments bookmarks
                                   notifications next_id];
    try assumption.
  - now rewrite map_key_patch by reflexivity.
  - now apply ids_ok_filter.
  - now apply ids_ok_filter.
  - now apply ids_ok_filter.
  - now apply ids_ok_filter.
  - rewrite Forall_forall in *. intros l Hin.
    apply filter_In in Hin. apply Hlp. tauto.
Qed.

(** Every handler that returns keeps the platform guarantees, so they
    hold in every state the handlers can reach. *)
Lemma wf_preserved (w : World) :
  wf w ->
  (forall caption storageId postId w',
      createPost caption storageId w = (Returned postId, w') -> wf w') /\
  (forall postId r w',
      toggleLike postId w = (Returned r, w') -> wf w') /\
  (forall postId r w',
      deletePost postId w = (Returned r, w') -> wf w').
Proof.
  intros Hwf. split; [|split].
  - intros caption storageId postId w' Hrun.
    apply createPost_returned_inv in Hrun.
    destruct Hrun as (identity & u & url & _ & _ & _ & _ & ->).
    now apply wf_after_create.
  - intros postId r w' Hrun.
    apply toggleLike_returned_inv in Hrun.
    destruct Hrun
      as (u & post & _ & Hpost & [(e & He & _ & ->) | (_ & _ & ->)]).
    + now apply wf_after_unlike.
    + now apply wf_after_like.
  - intros postId [] w' Hrun.
    apply deletePost_returned_inv in Hrun; [|exact Hwf].
    destruct Hrun as (u & post & _ & _ & _ & _ & ->).
    now apply wf_after_delete.
Qed.

(** ** One Like per caller and post *)

Lemma filter_length_le {A} (p q : A -> bool) (l : list A) :
  List.length (filter p (filter q l)) <= List.length (filter p l).
Proof.
  induction l as [|a l IH]; simpl; [lia|].
  destruct (q a); simpl; destruct (p a); simpl; lia.
Qed.

Lemma like_matches_inv (userId postId userId' postId' id : Id) :
  like_matches userId' postId' (Like.mk id userId postId) = true ->
  userId' = userId /\ postId' = postId.
Proof.
  unfold like_matches. simpl. intros H. apply andb_prop in H.
  destruct H as [H1 H2]. apply Nat.eqb_eq in H1, H2. auto.
Qed.

(** X14.  The handlers never create a second Like for a caller and a
    post: from a database state in which no caller holds two Likes for one
    post, [createPost], [toggleLike] and [deletePost], when they return,
    end in such a state. *)
Lemma unique_likes_preserved (w : World) :
  wf w ->
  unique_likes w ->
  (forall caption storageId postId w',
      createPost caption storageId w = (Returned postId, w') ->
      unique_likes w') /\
  (forall postId r w',
      toggleLike postId w = (Returned r, w') -> unique_likes w') /\
  (forall postId r w',
      deletePost postId w = (Returned r, w') -> unique_likes w').
Proof.
  intros Hwf Hu. split; [|split].
  - intros caption storageId postId w' Hrun.
    apply createPost_returned_inv in Hrun.
    destruct Hrun as (identity & u & url & _ & _ & _ & _ & ->).
    exact Hu.
  - intros postId r w' Hrun.
    apply toggleLike_returned_inv in Hrun.
    destruct Hrun
      as (u & post & _ & Hpost & [(e & He & _ & ->) | (He & _ & ->)]);
      intros userId' postId'; unfold at_most_one_like.
    + cbn [after_unlike likes]. unfold tbl_remove.
      etransitivity; [apply filter_length_le | apply Hu].
    + cbn [after_like likes]. rewrite filter_app, length_app. simpl.
      destruct (like_matches userId' postId' _) eqn:E; simpl.
      * apply like_matches_inv in E. destruct E as [-> ->].
        apply find_none_filter_nil in He. rewrite He. simpl. lia.
      * specialize (Hu userId' postId'). unfold at_most_one_like in Hu. lia.
  - intros postId [] w' Hrun.
    apply deletePost_returned_inv in Hrun; [|exact Hwf].
    destruct Hrun as (u & post & _ & _ & _ & _ & ->).
    intros userId' postId'. unfold at_most_one_like.
    cbn [after_delete likes].
    etransitivity; [apply filter_length_le | apply Hu].
Qed.

(** * Further properties of the handlers *)

(** ** A post that is not there *)

Lemma toggleLike_missing_run (w : World) (u : User.t) (postId : Id) :
  authenticated u w ->
  tbl_get Post._id postId (posts w) = None ->
  toggleLike postId w = (Thrown "Post not found", w).
Proof.
  intros Hauth Hpost. unfold toggleLike.
  rewrite (bind_returned _ _ _ _ _ Hauth).
  unfold likes_by_user_and_post_first, db_get. rewrite !bind_gets.
  cbn [rows key posts_table]. now rewrite Hpost.
Qed.

Lemma deletePost_missing_run (w : World) (u : User.t) (postId : Id) :
  authenticated u w ->
  tbl_get Post._id postId (posts w) = None ->
  deletePost postId w = (Thrown "Post not found", w).
Proof.
  intros Hauth Hpost. unfold deletePost.
  rewrite (bind_returned _ _ _ _ _ Hauth).
  unfold db_get. rewrite bind_gets.
  cbn [rows key posts_table]. now rewrite Hpost.
Qed.

(** X1.  For a signed-in caller and a post id that is not in the table,
    [toggleLike] and [deletePost] both throw "Post not found" and write
    nothing, whatever Likes, Comments or Bookmarks still carry that id. *)
Theorem post_not_found (w : World) (u : User.t) (postId : Id) :
  authenticated u w ->
  tbl_get Post._id postId (posts w) = None ->
  toggleLike postId w = (Thrown "Post not found", w) /\
  deletePost postId w = (Thrown "Post not found", w).
Proof.
  intros Hauth Hpost. split.
  - now apply (toggleLike_missing_run w u).
  - now apply (deletePost_missing_run w u).
Qed.

Lemma post_not_found_witness :
  toggleLike 99 Sample.world = (Thrown "Post not found", Sample.world) /\
  deletePost 99 Sample.world = (Thrown "Post not found", Sample.world).
Proof.
  apply (post_not_found Sample.world Sample.alice 99); reflexivity.
Defined.

(** X2.  Whenever [toggleLike] throws, it has written nothing, and the
    failure is either the one of the authentication step or
    "Post not found": once the post is found neither the delete nor the
    insert nor the patch can fail. *)
Theorem toggleLike_throws_unchanged
    (w w' : World) (postId : Id) (msg : string) :
  toggleLike postId w = (Thrown msg, w') ->
  w' = w /\
  (getAunthenticatedUser w = (Thrown msg, w) \/ msg = "Post not found").
Proof.
  intros Hrun.
  destruct (getAunthenticatedUser w) as [[u|m] w0] eqn:Hauth.
  - assert (w0 = w) by (eapply getAunthenticatedUser_pure; eauto). subst w0.
    destruct (tbl_get Post._id postId (posts w)) as [post|] eqn:Hpost.
    + destruct (find (like_matches (User._id u) postId) (likes w))
        as [e|] eqn:He.
      * rewrite (toggleLike_unlike_run w u postId post e Hauth Hpost He)
          in Hrun. discriminate.
      * rewrite (toggleLike_like_run w u postId post Hauth Hpost He) in Hrun.
        discriminate.
    + rewrite (toggleLike_missing_run w u postId Hauth Hpost) in Hrun.
      injection Hrun as <- <-. auto.
  - assert (w0 = w) by (eapply getAunthenticatedUser_pure; eauto). subst w0.
    unfold toggleLike in Hrun.
    rewrite (bind_thrown _ _ _ _ _ Hauth) in Hrun.
    injection Hrun as <- <-. auto.
Qed.

Lemma toggleLike_throws_unchanged_witness :
  Sample.world = Sample.world /\
  (getAunthenticatedUser Sample.world
   = (Thrown "Post not found", Sample.world) \/
   "Post not found" = "Post not found").
Proof.
  apply (toggleLike_throws_unchanged Sample.world Sample.world 99).
  reflexivity.
Defined.

(** ** The order of the checks in createPost *)

(** X3.  [createPost] throws "User not found" exactly when the caller is
    signed in without a [users] document, whatever the storage id; it
    throws "Image not found" exactly when the caller is signed in, has a
    [users] document, and the storage id has no URL. *)
Theorem createPost_check_order
    (w : World) (caption : option string) (storageId : StorageId) :
  (createPost caption storageId w = (Thrown "User not found", w) <->
   exists identity,
     auth w = Some identity /\
     find (fun x => String.eqb (User.clerkId x) (subject identity))
          (users w) = None) /\
  (createPost caption storageId w = (Thrown "Image not found", w) <->
   exists identity u,
     auth w = Some identity /\
     find (fun x => String.eqb (User.clerkId x) (subject identity))
          (users w) = Some u /\
     storage_lookup storageId (storage w) = None).
Proof.
  destruct (auth w) as [identity|] eqn:Hid.
  2:{ assert (Hrun : createPost caption storageId w
                     = (Thrown "Unauthorized", w))
        by (unfold createPost; unfold_runtime; now rewrite Hid).
      rewrite Hrun. split; split; try discriminate.
      - intros (i & Hi & _). discriminate.
      - intros (i & u & Hi & _). discriminate. }
  destruct (find (fun x => String.eqb (User.clerkId x) (subject identity))
                 (users w)) as [u|] eqn:Hu.
  2:{ assert (Hrun : createPost caption storageId w
                     = (Thrown "User not found", w))
        by (unfold createPost; unfold_runtime; now rewrite Hid, Hu).
      rewrite Hrun. split; split; try discriminate.
      - intros _. exists identity. auto.
      - reflexivity.
      - intros (i & u & [= <-] & Hu' & _). congruence. }
  destruct (storage_lookup storageId (storage w)) as [url|] eqn:Hurl.
  - rewrite (createPost_run w identity u caption storageId url Hid Hu Hurl).
    split; split; try discriminate.
    + intros (i & [= <-] & Hu'). congruence.
    + intros (i & u' & [= <-] & _ & Hnone). discriminate.
  - assert (Hrun : createPost caption storageId w
                   = (Thrown "Image not found", w))
      by (unfold createPost; unfold_runtime; now rewrite Hid, Hu, Hurl).
    rewrite Hrun. split; split; try discriminate.
    + intros (i & [= <-] & Hu'). congruence.
    + intros _. exists identity, u. auto.
    + reflexivity.
Qed.

(** ** What toggleLike changes and what it leaves alone *)

Lemma tbl_get_remove_other {T} (key : T -> Id) (id id' : Id) (t : list T) :
  id' <> id -> tbl_get key id' (tbl_remove key id t) = tbl_get key id' t.
Proof.
  intros Hne. unfold tbl_get, tbl_remove.
  induction t as [|d t IH]; simpl; [reflexivity|].
  destruct (key d =? id) eqn:E; simpl.
  - apply Nat.eqb_eq in E.
    replace (key d =? id') with false
      by (symmetry; apply Nat.eqb_neq; congruence).
    exact IH.
  - destruct (key d =? id'); [reflexivity | exact IH].
Qed.

(** X4.  A [toggleLike] call that returns changes the [likes] field of
    the post and nothing else of it, changes no other post, and nothing in
    the users, comments, bookmarks or storage.  When the counter was a
    safe integer it has moved by exactly one, up when the call returns
    [true] and down when it returns [false]. *)
Theorem toggleLike_step (w w' : World) (postId : Id) (r : bool) :
  toggleLike postId w = (Returned r, w') ->
  exists post n,
    tbl_get Post._id postId (posts w) = Some post /\
    tbl_get Post._id postId (posts w') = Some (Post.set_likes n post) /\
    (Js.safe (Post.likes post) ->
     n = if r then (Post.likes post + 1)%Z else (Post.likes post - 1)%Z) /\
    (forall other, other <> postId ->
       tbl_get Post._id other (posts w') = tbl_get Post._id other (posts w)) /\
    users w' = users w /\
    comments w' = comments w /\
    bookmarks w' = bookmarks w /\
    storage w' = storage w.
Proof.
  intros Hrun. apply toggleLike_returned_inv in Hrun.
  destruct Hrun
    as (u & post & _ & Hpost & [(e & _ & -> & ->) | (_ & -> & ->)]);
    exists post.
  - exists (Post.likes post - 1)%Z. split; [exact Hpost|].
    unfold after_unlike. cbn [posts users comments bookmarks storage].
    split; [now apply post_likes_patch|].
    split; [reflexivity|]. split; [|auto].
    intros other Hother. now apply tbl_get_patch_other.
  - exists (Post.likes post + 1)%Z. split; [exact Hpost|].
    unfold after_like. cbn [posts users comments bookmarks storage].
    split; [now apply post_likes_patch|].
    split; [reflexivity|]. split; [|auto].
    intros other Hother. now apply tbl_get_patch_other.
Qed.

Lemma toggleLike_step_witness :
  exists post n,
    tbl_get Post._id 3 (posts (Sample.as_bob Sample.world)) = Some post /\
    tbl_get Post._id 3 (posts Sample.unliked)
    = Some (Post.set_likes n post) /\
    (Js.safe (Post.likes post) -> n = (Post.likes post - 1)%Z) /\
    (forall other, other <> 3 ->
       tbl_get Post._id other (posts Sample.unliked)
       = tbl_get Post._id other (posts (Sample.as_bob Sample.world))) /\
    users Sample.unliked = users (Sample.as_bob Sample.world) /\
    comments Sample.unliked = comments (Sample.as_bob Sample.world) /\
    bookmarks Sample.unliked = bookmarks (Sample.as_bob Sample.world) /\
    storage Sample.unliked = storage (Sample.as_bob Sample.world).
Proof.
  apply (toggleLike_step (Sample.as_bob Sample.world) Sample.unliked 3 false).
  reflexivity.
Defined.

Lemma unlike_leaves_none
    (w : World) (userId postId : Id) (post : Post.t) (e : Like.t) :
  at_most_one_like userId postId w ->
  find (like_matches userId postId) (likes w) = Some e ->
  find (like_matches userId postId) (likes (after_unlike postId e post w))
  = None.
Proof.
  intros Hone He. apply find_none_filter_nil.
  cbn [after_unlike likes]. unfold tbl_remove.
  rewrite filter_filter.
  rewrite (filter_ext _ (fun a => like_matches userId postId a
                                  && negb (Like._id a =? Like._id e)))
    by (intros a; apply andb_comm).
  rewrite <- filter_filter.
  unfold at_most_one_like in Hone.
  destruct (find_some_filter _ _ _ He) as [rest Hrest].
  rewrite Hrest in *. destruct rest; [|simpl in Hone; lia].
  simpl. now rewrite Nat.eqb_refl.
Qed.

(** X5.  When the caller holds at most one Like for the post, the
    boolean [toggleLike] returns tells whether the caller likes the post
    after the call. *)
Theorem toggleLike_returns_new_state
    (w w' : World) (u : User.t) (postId : Id) (r : bool) :
  authenticated u w ->
  at_most_one_like (User._id u) postId w ->
  toggleLike postId w = (Returned r, w') ->
  like_exists (User._id u) postId w' = r.
Proof.
  intros Hauth Hone Hrun. apply toggleLike_returned_inv in Hrun.
  destruct Hrun
    as (u' & post & Hauth' & Hpost & [(e & He & -> & ->) | (He & -> & ->)]);
    rewrite <- (authenticated_unique u u' w Hauth Hauth') in *;
    unfold like_exists.
  - now rewrite (unlike_leaves_none w (User._id u) postId post e Hone He).
  - cbn [after_like likes].
    now rewrite (find_app_none _ _ _ He (like_matches_new _ _ _)).
Qed.

Lemma toggleLike_returns_new_state_witness :
  like_exists 1 8 (after_like 8 Sample.alice Sample.harbour Sample.world)
  = true.
Proof.
  apply (toggleLike_returns_new_state Sample.world
           (after_like 8 Sample.alice Sample.harbour Sample.world)
           Sample.alice 8 true).
  - reflexivity.
  - unfold at_most_one_like. simpl. lia.
  - reflexivity.
Defined.

(** X6.  In a database state a returning [toggleLike] adds one Like
    document when it returns [true] and removes one when it returns
    [false]; it never touches a second one. *)
Theorem toggleLike_one_document
    (w w' : World) (postId : Id) (r : bool) :
  wf w ->
  toggleLike postId w = (Returned r, w') ->
  if r
  then List.length (likes w') = S (List.length (likes w))
  else S (List.length (likes w')) = List.length (likes w).
Proof.
  intros Hwf Hrun. apply toggleLike_returned_inv in Hrun.
  destruct Hrun
    as (u & post & _ & _ & [(e & He & -> & ->) | (_ & -> & ->)]).
  - cbn [after_unlike likes].
    apply find_some in He. destruct He as [Hin _].
    pose proof (count_remove Like._id (fun _ => true) e (likes w)
                  (wf_likes_nodup w Hwf) Hin) as Hcount.
    rewrite !filter_all in Hcount. lia.
  - cbn [after_like likes]. rewrite length_app. simpl. lia.
Qed.

Lemma sample_as_bob_wf : wf (Sample.as_bob Sample.world).
Proof. split; try sample_ids. simpl. repeat (constructor; try lia). Qed.

Lemma toggleLike_one_document_witness :
  S (List.length (likes Sample.unliked))
  = List.length (likes (Sample.as_bob Sample.world)).
Proof.
  apply (toggleLike_one_document (Sample.as_bob Sample.world)
           Sample.unliked 3 false).
  - exact sample_as_bob_wf.
  - reflexivity.
Defined.

(** ** What deletePost leaves alone *)

Lemma storage_lookup_delete_other (sid sid' : StorageId)
    (s : list (StorageId * string)) :
  sid' <> sid ->
  storage_lookup sid' (filter (fun f => negb (fst f =? sid)) s)
  = storage_lookup sid' s.
Proof.
  intros Hne. unfold storage_lookup.
  induction s as [|f s IH]; simpl; [reflexivity|].
  destruct (_ =? sid) eqn:E; simpl.
  - apply Nat.eqb_eq in E.
    replace (_ =? sid') with false
      by (symmetry; apply Nat.eqb_neq; congruence).
    exact IH.
  - destruct (_ =? sid'); [reflexivity | exact IH].
Qed.

(** X7.  In a database state a returning [deletePost] removes nothing but
    the cascade: the Likes, Comments and Bookmarks of other posts stay, in
    order; every other post and every other stored file stays as it was;
    and the notifications are not touched at all, those about the deleted
    post included. *)
Theorem deletePost_frame (w w' : World) (postId : Id) (r : unit) :
  wf w ->
  deletePost postId w = (Returned r, w') ->
  notifications w' = notifications w /\
  likes w' = filter (fun l => negb (Like.postId l =? postId)) (likes w) /\
  comments w'
  = filter (fun c => negb (Comment.postId c =? postId)) (comments w) /\
  bookmarks w'
  = filter (fun b => negb (Bookmark.postId b =? postId)) (bookmarks w) /\
  (forall other, other <> postId ->
     tbl_get Post._id other (posts w') = tbl_get Post._id other (posts w)) /\
  (forall post sid,
     tbl_get Post._id postId (posts w) = Some post ->
     sid <> Post.storageId post ->
     storage_lookup sid (storage w') = storage_lookup sid (storage w)).
Proof.
  intros Hwf Hrun. destruct r.
  apply deletePost_returned_inv in Hrun; [|exact Hwf].
  destruct Hrun as (u & post & _ & Hpost & _ & _ & ->).
  unfold after_delete.
  cbn [notifications likes comments bookmarks posts storage].
  repeat split.
  - intros other Hother. now apply tbl_get_remove_other.
  - intros post' sid Hpost' Hsid.
    rewrite Hpost in Hpost'. injection Hpost' as <-.
    now apply storage_lookup_delete_other.
Qed.

Lemma deletePost_frame_witness :
  notifications Sample.deleted = notifications Sample.world /\
  likes Sample.deleted = [] /\
  comments Sample.deleted = [] /\
  bookmarks Sample.deleted = [] /\
  (forall other, other <> 3 ->
     tbl_get Post._id other (posts Sample.deleted)
     = tbl_get Post._id other (posts Sample.world)) /\
  (forall post sid,
     tbl_get Post._id 3 (posts Sample.world) = Some post ->
     sid <> Post.storageId post ->
     storage_lookup sid (storage Sample.deleted)
     = storage_lookup sid (storage Sample.world)).
Proof.
  apply (deletePost_frame Sample.world Sample.deleted 3 tt).
  - exact sample_wf.
  - reflexivity.
Defined.

(** ** After a post is gone *)

Lemma find_map_preserved {A} (p : A -> bool) (g : A -> A) (xs : list A) :
  (forall x, p (g x) = p x) ->
  find p (map g xs) = option_map g (find p xs).
Proof.
  intros Hp. induction xs as [|x xs IH]; simpl; [reflexivity|].
  rewrite Hp. destruct (p x); [reflexivity | exact IH].
Qed.

(** Patching the [posts] counter of a user keeps every caller signed in. *)
Lemma authenticated_after_patch
    (u : User.t) (w w' : World) (id : Id) (n : Z) :
  authenticated u w ->
  auth w' = auth w ->
  users w' = tbl_patch User._id id (User.set_posts n) (users w) ->
  authenticated (if User._id u =? id then User.set_posts n u else u) w'.
Proof.
  intros Hauth Ha Hu. apply authenticated_inv in Hauth.
  destruct Hauth as (identity & Hid & Hfind).
  unfold authenticated, getAunthenticatedUser. unfold_runtime.
  rewrite Ha, Hid, Hu. unfold tbl_patch.
  rewrite find_map_preserved.
  - now rewrite Hfind.
  - intros x. destruct (User._id x =? id); reflexivity.
Qed.

(** X8.  Once [deletePost] has returned, the same caller calling
    [deletePost] or [toggleLike] on that post id gets "Post not found",
    and nothing more is written. *)
Theorem deletePost_then_not_found
    (w w' : World) (postId : Id) (r : unit) :
  wf w ->
  deletePost postId w = (Returned r, w') ->
  deletePost postId w' = (Thrown "Post not found", w') /\
  toggleLike postId w' = (Thrown "Post not found", w').
Proof.
  intros Hwf Hrun. destruct r.
  apply deletePost_returned_inv in Hrun; [|exact Hwf].
  destruct Hrun as (u & post & Hauth & _ & _ & _ & ->).
  set (w' := after_delete postId u post w).
  assert (Hauth' : authenticated
                     (if User._id u =? User._id u
                      then User.set_posts (Z.max 0 2) u else u) w')
    by (apply (authenticated_after_patch u w); auto).
  assert (Hgone : tbl_get Post._id postId (posts w') = None)
    by apply tbl_get_remove_same.
  split.
  - exact (deletePost_missing_run w' _ postId Hauth' Hgone).
  - exact (toggleLike_missing_run w' _ postId Hauth' Hgone).
Qed.

Lemma deletePost_then_not_found_witness :
  deletePost 3 Sample.deleted = (Thrown "Post not found", Sample.deleted) /\
  toggleLike 3 Sample.deleted = (Thrown "Post not found", Sample.deleted).
Proof.
  apply (deletePost_then_not_found Sample.world Sample.deleted 3 tt).
  - exact sample_wf.
  - reflexivity.
Defined.

(** ** The feed *)

(** X9.  [getFeedPosts] never writes, whether it returns or throws, and
    it throws only when the authentication step does: a post whose author
    has no [users] document does not make it fail. *)
Theorem getFeedPosts_read_only
    (w w' : World) (o : Outcome (list FeedPost.t)) :
  getFeedPosts w = (o, w') ->
  w' = w /\
  (forall msg, o = Thrown msg -> getAunthenticatedUser w = (Thrown msg, w)).
Proof.
  intros Hrun.
  destruct (getAunthenticatedUser w) as [[u|m] w0] eqn:Hauth;
    assert (w0 = w) by (eapply getAunthenticatedUser_pure; eauto); subst w0.
  - rewrite (getFeedPosts_run u w Hauth) in Hrun.
    injection Hrun as <- <-. split; [reflexivity | discriminate].
  - unfold getFeedPosts in Hrun.
    rewrite (bind_thrown _ _ _ _ _ Hauth) in Hrun.
    injection Hrun as <- <-. split; [reflexivity|].
    now intros msg [= ->].
Qed.

Lemma getFeedPosts_read_only_witness :
  Sample.signed_out Sample.world = Sample.signed_out Sample.world /\
  (forall msg,
     Thrown (A:=list FeedPost.t) "Unauthorized" = Thrown msg ->
     getAunthenticatedUser (Sample.signed_out Sample.world)
     = (Thrown msg, Sample.signed_out Sample.world)).
Proof.
  apply (getFeedPosts_read_only (Sample.signed_out Sample.world)).
  reflexivity.
Defined.

Lemma truthy_find_iff {A} (p : A -> bool) (xs : list A) :
  truthy (find p xs) = true <-> exists x, In x xs /\ p x = true.
Proof.
  destruct (find p xs) as [x|] eqn:E; simpl.
  - split; [intros _ | reflexivity].
    apply find_some in E. eauto.
  - split; [discriminate|].
    intros (x & Hin & Hp). now rewrite (find_none _ _ E x Hin) in Hp.
Qed.

Lemma getFeedPosts_returned_inv
    (w w' : World) (u : User.t) (feed : list FeedPost.t) :
  authenticated u w ->
  getFeedPosts w = (Returned feed, w') ->
  feed = map (feed_entry_of w u) (rev (posts w)).
Proof.
  intros Hauth Hrun. rewrite (getFeedPosts_run u w Hauth) in Hrun.
  now injection Hrun as <- _.
Qed.

(** X10.  In the feed an entry is flagged [isLiked] exactly when the
    caller holds a Like for its post, and [isBookmarked] exactly when the
    caller holds a Bookmark for it; Likes and Bookmarks of other users do
    not count. *)
Theorem getFeedPosts_flags
    (w w' : World) (u : User.t) (feed : list FeedPost.t) (e : FeedPost.t) :
  authenticated u w ->
  getFeedPosts w = (Returned feed, w') ->
  In e feed ->
  (FeedPost.isLiked e = true <->
   exists l, In l (likes w) /\
             Like.userId l = User._id u /\
             Like.postId l = Post._id (FeedPost.post e)) /\
  (FeedPost.isBookmarked e = true <->
   exists b, In b (bookmarks w) /\
             Bookmark.userId b = User._id u /\
             Bookmark.postId b = Post._id (FeedPost.post e)).
Proof.
  intros Hauth Hrun Hin.
  rewrite (getFeedPosts_returned_inv w w' u feed Hauth Hrun) in Hin.
  apply in_map_iff in Hin. destruct Hin as (p & <- & _).
  cbn [feed_entry_of FeedPost.isLiked FeedPost.isBookmarked FeedPost.post].
  rewrite !truthy_find_iff. split.
  - split; intros (l & Hl & Hm); exists l; (split; [exact Hl|]).
    + unfold like_matches in Hm. apply andb_prop in Hm.
      destruct Hm as [H1 H2]. apply Nat.eqb_eq in H1, H2. auto.
    + destruct Hm as [H1 H2]. unfold like_matches.
      now rewrite H1, H2, !Nat.eqb_refl.
  - split; intros (b & Hb & Hm); exists b; (split; [exact Hb|]).
    + unfold bookmark_matches in Hm. apply andb_prop in Hm.
      destruct Hm as [H1 H2]. apply Nat.eqb_eq in H1, H2. auto.
    + destruct Hm as [H1 H2]. unfold bookmark_matches.
      now rewrite H1, H2, !Nat.eqb_refl.
Qed.

(** X11.  In the feed the author of an entry carries the id, username
    and image of the [users] document of the post's owner; when the owner
    has no document all three are missing and the entry is still
    returned. *)
Theorem getFeedPosts_author
    (w w' : World) (u : User.t) (feed : list FeedPost.t) (e : FeedPost.t) :
  authenticated u w ->
  getFeedPosts w = (Returned feed, w') ->
  In e feed ->
  match tbl_get User._id (Post.userId (FeedPost.post e)) (users w) with
  | Some a =>
      FeedPost.author e
      = Author.mk (Some (Post.userId (FeedPost.post e)))
                  (Some (User.username a)) (Some (User.image a))
  | None => FeedPost.author e = Author.mk None None None
  end.
Proof.
  intros Hauth Hrun Hin.
  rewrite (getFeedPosts_returned_inv w w' u feed Hauth Hrun) in Hin.
  apply in_map_iff in Hin. destruct Hin as (p & <- & _).
  cbn [feed_entry_of FeedPost.author FeedPost.post].
  destruct (tbl_get User._id (Post.userId p) (users w)) as [a|] eqn:E;
    [|reflexivity].
  apply tbl_get_some in E. destruct E as [_ Hk].
  simpl. now rewrite Hk.
Qed.

Lemma getFeedPosts_flags_witness :
  (FeedPost.isLiked
     (feed_entry_of (Sample.as_bob Sample.world) Sample.bob Sample.sunset)
   = true <->
   exists l, In l (likes (Sample.as_bob Sample.world)) /\
             Like.userId l = 2 /\ Like.postId l = 3) /\
  (FeedPost.isBookmarked
     (feed_entry_of (Sample.as_bob Sample.world) Sample.bob Sample.sunset)
   = true <->
   exists b, In b (bookmarks (Sample.as_bob Sample.world)) /\
             Bookmark.userId b = 2 /\ Bookmark.postId b = 3).
Proof.
  apply (getFeedPosts_flags (Sample.as_bob Sample.world)
           (Sample.as_bob Sample.world) Sample.bob
           (map (feed_entry_of (Sample.as_bob Sample.world) Sample.bob)
                [Sample.harbour; Sample.sunset])).
  - reflexivity.
  - reflexivity.
  - simpl. auto.
Defined.

Lemma getFeedPosts_author_witness :
  FeedPost.author (feed_entry_of Sample.world Sample.alice Sample.harbour)
  = Author.mk (Some 2) (Some "bob") (Some "b.png").
Proof.
  apply (getFeedPosts_author Sample.world Sample.world Sample.alice
           (map (feed_entry_of Sample.world Sample.alice)
                [Sample.harbour; Sample.sunset])
           (feed_entry_of Sample.world Sample.alice Sample.harbour)).
  - reflexivity.
  - reflexivity.
  - simpl. auto.
Defined.

(** ** createPost followed by other calls *)

Lemma authenticated_intro
    (w : World) (identity : UserIdentity) (u : User.t) :
  auth w = Some identity ->
  find (fun x => String.eqb (User.clerkId x) (subject identity)) (users w)
  = Some u ->
  authenticated u w.
Proof.
  intros Hid Hu. unfold authenticated, getAunthenticatedUser.
  unfold_runtime. now rewrite Hid, Hu.
Qed.

Lemma no_like_for_fresh_post (w : World) (p : Like.t -> bool) :
  wf w ->
  (forall l, p l = true -> Like.postId l = next_id w) ->
  find p (likes w) = None.
Proof.
  intros Hwf Hp. destruct (find p (likes w)) as [l|] eqn:E; [|reflexivity].
  apply find_some in E. destruct E as [Hin Hl]. apply Hp in Hl.
  pose proof (wf_like_post w Hwf) as Hall. rewrite Forall_forall in Hall.
  specialize (Hall l Hin). lia.
Qed.

(** X12.  In a database state, right after [createPost] has returned,
    [getFeedPosts] by the same caller lists the new post first, with the
    caption and storage id that were passed, both counters 0 and
    [isLiked] false, followed by the posts that were there, newest
    first. *)
Theorem createPost_then_feed
    (w w' : World) (caption : option string) (storageId : StorageId)
    (postId : Id) :
  wf w ->
  createPost caption storageId w = (Returned postId, w') ->
  exists e rest,
    getFeedPosts w' = (Returned (e :: rest), w') /\
    Post._id (FeedPost.post e) = postId /\
    Post.caption (FeedPost.post e) = caption /\
    Post.storageId (FeedPost.post e) = storageId /\
    Post.likes (FeedPost.post e) = 0%Z /\
    Post.comments (FeedPost.post e) = 0%Z /\
    FeedPost.isLiked e = false /\
    map FeedPost.post rest = rev (posts w).
Proof.
  intros Hwf Hrun. apply createPost_returned_inv in Hrun.
  destruct Hrun as (identity & u & url & Hid & Hu & _ & -> & ->).
  set (w' := after_create u url storageId caption w).
  set (u' := if User._id u =? User._id u
             then User.set_posts (Js.add (User.posts u) 1) u else u).
  assert (Hauth' : authenticated u' w').
  { apply (authenticated_after_patch u w); auto.
    now apply (authenticated_intro w identity). }
  set (new := Post.mk (next_id w) (User._id u) url storageId caption 0 0).
  exists (feed_entry_of w' u' new),
         (map (feed_entry_of w' u') (rev (posts w))).
  split.
  { rewrite (getFeedPosts_run u' w' Hauth'). unfold w' at 2.
    cbn [after_create posts]. now rewrite rev_app_distr. }
  repeat split.
  - cbn [feed_entry_of FeedPost.isLiked]. unfold w'.
    cbn [after_create likes new Post._id].
    rewrite (no_like_for_fresh_post w _ Hwf); [reflexivity|].
    intros l Hl. now apply like_matches_post in Hl.
  - rewrite map_map. simpl. apply map_id.
Qed.

Lemma createPost_then_feed_witness :
  exists e rest,
    getFeedPosts
      (after_create Sample.alice "https://img/10" 10 (Some "dusk")
         Sample.world)
    = (Returned (e :: rest),
       after_create Sample.alice "https://img/10" 10 (Some "dusk")
         Sample.world) /\
    Post._id (FeedPost.post e) = 11 /\
    Post.caption (FeedPost.post e) = Some "dusk" /\
    Post.storageId (FeedPost.post e) = 10 /\
    Post.likes (FeedPost.post e) = 0%Z /\
    Post.comments (FeedPost.post e) = 0%Z /\
    FeedPost.isLiked e = false /\
    map FeedPost.post rest = [Sample.harbour; Sample.sunset].
Proof.
  apply (createPost_then_feed Sample.world
           (after_create Sample.alice "https://img/10" 10 (Some "dusk")
              Sample.world) (Some "dusk") 10 11).
  - exact sample_wf.
  - reflexivity.
Defined.

Lemma tbl_get_snoc {T} (key : T -> Id) (t : list T) (d : T) :
  tbl_get key (key d) t = None -> tbl_get key (key d) (t ++ [d]) = Some d.
Proof.
  intros Hnone. unfold tbl_get in *.
  apply find_app_none; [exact Hnone | apply Nat.eqb_refl].
Qed.

Lemma filter_keeps_all {A} (p : A -> bool) (xs : list A) :
  (forall x, In x xs -> p x = true) -> filter p xs = xs.
Proof.
  intros Hp. induction xs as [|x xs IH]; simpl; [reflexivity|].
  rewrite (Hp x) by (now left). f_equal. apply IH.
  intros y Hy. apply Hp. now right.
Qed.

(** X13.  In a database state, deleting a post right after creating it
    succeeds and gives back the posts table and the Likes as they were,
    but not the rest: the uploaded file is gone from storage and the
    caller's [posts] counter is 2, whatever it was before. *)
Theorem createPost_then_deletePost
    (w : World) (identity : UserIdentity) (u : User.t)
    (caption : option string) (storageId : StorageId) (url : string) :
  wf w ->
  auth w = Some identity ->
  find (fun x => String.eqb (User.clerkId x) (subject identity)) (users w)
  = Some u ->
  storage_lookup storageId (storage w) = Some url ->
  exists w1 w2,
    createPost caption storageId w = (Returned (next_id w), w1) /\
    deletePost (next_id w) w1 = (Returned tt, w2) /\
    posts w2 = posts w /\
    likes w2 = likes w /\
    storage_lookup storageId (storage w2) = None /\
    user_posts (User._id u) w2 = Some 2%Z.
Proof.
  intros Hwf Hid Hu Hurl.
  set (w1 := after_create u url storageId caption w).
  set (u1 := if User._id u =? User._id u
             then User.set_posts (Js.add (User.posts u) 1) u else u).
  set (new := Post.mk (next_id w) (User._id u) url storageId caption 0 0).
  assert (Hfresh : tbl_get Post._id (next_id w) (posts w) = None)
    by (apply tbl_get_fresh; exact (proj2 (wf_posts w Hwf))).
  assert (Hauth1 : authenticated u1 w1).
  { apply (authenticated_after_patch u w); auto.
    now apply (authenticated_intro w identity). }
  assert (Hid1 : User._id u1 = User._id u)
    by (unfold u1; rewrite Nat.eqb_refl; reflexivity).
  assert (Hnew : tbl_get Post._id (next_id w) (posts w1) = Some new)
    by (apply (tbl_get_snoc Post._id (posts w) new); exact Hfresh).
  exists w1, (after_delete (next_id w) u1 new w1).
  split; [now apply (createPost_run w identity)|].
  split.
  { apply deletePost_owner_run; auto.
    - now apply wf_after_create.
    - cbn [w1 after_create storage new Post.storageId]. now rewrite Hurl. }
  unfold after_delete. cbn [posts likes storage new Post.storageId].
  unfold w1 at 1 2 3. cbn [after_create posts likes storage].
  repeat split.
  - unfold tbl_remove. rewrite filter_app. simpl.
    rewrite Nat.eqb_refl. simpl. rewrite app_nil_r.
    apply filter_keeps_all. intros p Hp.
    apply negb_true_iff, Nat.eqb_neq.
    pose proof (proj2 (wf_posts w Hwf)) as Hall.
    rewrite Forall_forall in Hall.
    specialize (Hall (Post._id p) (in_map Post._id _ p Hp)). lia.
  - apply filter_keeps_all. intros l Hl.
    apply negb_true_iff, Nat.eqb_neq.
    pose proof (wf_like_post w Hwf) as Hall. rewrite Forall_forall in Hall.
    specialize (Hall l Hl). lia.
  - apply storage_lookup_deleted.
  - unfold user_posts. cbn [users]. rewrite Hid1.
    rewrite tbl_get_patch_same by reflexivity.
    unfold w1. cbn [after_create users].
    rewrite tbl_get_patch_same by reflexivity.
    rewrite (tbl_get_in User._id (users w) u (wf_users_nodup w Hwf)).
    + reflexivity.
    + now apply find_some in Hu.
Qed.

Lemma createPost_then_deletePost_witness :
  exists w1 w2,
    createPost (Some "dusk") 10 Sample.world = (Returned 11, w1) /\
    deletePost 11 w1 = (Returned tt, w2) /\
    posts w2 = posts Sample.world /\
    likes w2 = likes Sample.world /\
    storage_lookup 10 (storage w2) = None /\
    user_posts 1 w2 = Some 2%Z.
Proof.
  apply (createPost_then_deletePost Sample.world
           {| subject := "clerk_alice" |} Sample.alice (Some "dusk") 10
           "https://img/10").
  - exact sample_wf.
  - reflexivity.
  - reflexivity.
  - reflexivity.
Defined.

(** ** Invariants of the Like, Comment and Bookmark tables *)

Lemma sample_unique_likes : unique_likes Sample.world.
Proof.
  intros userId postId. unfold at_most_one_like. simpl.
  destruct (like_matches userId postId _); simpl; lia.
Qed.

Lemma unique_likes_preserved_witness :
  (forall caption storageId postId w',
      createPost caption storageId Sample.world = (Returned postId, w') ->
      unique_likes w') /\
  (forall postId r w',
      toggleLike postId Sample.world = (Returned r, w') ->
      unique_likes w') /\
  (forall postId r w',
      deletePost postId Sample.world = (Returned r, w') ->
      unique_likes w').
Proof.
  apply (unique_likes_preserved Sample.world).
  - exact sample_wf.
  - exact sample_unique_likes.
Defined.

Section References.
Context {A : Type} (ref : A -> Id).

Lemma refs_mono (ps ps' : list Post.t) (xs : list A) :
  (forall id, tbl_has Post._id id ps = true ->
              tbl_has Post._id id ps' = true) ->
  Forall (fun x => tbl_has Post._id (ref x) ps = true) xs ->
  Forall (fun x => tbl_has Post._id (ref x) ps' = true) xs.
Proof. intros Hsub. apply Forall_impl. intros x. apply Hsub. Qed.

Lemma refs_filter (p : A -> bool) (ps : list Post.t) (xs : list A) :
  Forall (fun x => tbl_has Post._id (ref x) ps = true) xs ->
  Forall (fun x => tbl_has Post._id (ref x) ps = true) (filter p xs).
Proof.
  rewrite !Forall_forall. intros Hall x Hx.
  apply filter_In in Hx. apply Hall. tauto.
Qed.

(** The cascade of [deletePost] removes every row that referenced the
    deleted post, so the rows that stay reference posts that stay. *)
Lemma refs_after_cascade (postId : Id) (ps : list Post.t) (xs : list A) :
  Forall (fun x => tbl_has Post._id (ref x) ps = true) xs ->
  Forall (fun x => tbl_has Post._id (ref x)
                     (tbl_remove Post._id postId ps) = true)
         (filter (fun x => negb (ref x =? postId)) xs).
Proof.
  rewrite !Forall_forall. intros Hall x Hx.
  apply filter_In in Hx. destruct Hx as [Hin Hne].
  apply negb_true_iff, Nat.eqb_neq in Hne.
  pose proof (@tbl_has_remove_other Post.t posts_table postId (ref x) ps Hne)
    as Hkeep.
  cbn [key posts_table] in Hkeep. rewrite Hkeep. now apply Hall.
Qed.
End References.

Lemma tbl_has_snoc {T} (key : T -> Id) (id : Id) (t : list T) (d : T) :
  tbl_has key id t = true -> tbl_has key id (t ++ [d]) = true.
Proof.
  unfold tbl_has. rewrite existsb_app. intros ->. reflexivity.
Qed.

(** X15.  Referential integrity of the dependent tables is kept: from a
    database state in which every Like, Comment and Bookmark references a
    post of the table, [createPost], [toggleLike] and [deletePost], when
    they return, end in such a state. *)
Theorem references_posts_preserved (w : World) :
  wf w ->
  references_posts w ->
  (forall caption storageId postId w',
      createPost caption storageId w = (Returned postId, w') ->
      references_posts w') /\
  (forall postId r w',
      toggleLike postId w = (Returned r, w') -> references_posts w') /\
  (forall postId r w',
      deletePost postId w = (Returned r, w') -> references_posts w').
Proof.
  intros Hwf (Hl & Hc & Hb). split; [|split].
  - intros caption storageId postId w' Hrun.
    apply createPost_returned_inv in Hrun.
    destruct Hrun as (identity & u & url & _ & _ & _ & _ & ->).
    unfold references_posts, after_create.
    cbn [posts likes comments bookmarks].
    repeat split;
      (eapply refs_mono; [|eassumption]);
      intros id Hid; now apply tbl_has_snoc.
  - intros postId r w' Hrun.
    apply toggleLike_returned_inv in Hrun.
    destruct Hrun
      as (u & post & _ & Hpost & [(e & He & _ & ->) | (_ & _ & ->)]).
    + unfold references_posts, after_unlike.
      cbn [posts likes comments bookmarks].
      repeat split.
      * apply refs_filter.
        eapply refs_mono; [|exact Hl].
        intros id Hid. now rewrite tbl_has_patch by reflexivity.
      * eapply refs_mono; [|exact Hc].
        intros id Hid. now rewrite tbl_has_patch by reflexivity.
      * eapply refs_mono; [|exact Hb].
        intros id Hid. now rewrite tbl_has_patch by reflexivity.
    + unfold references_posts, after_like.
      cbn [posts likes comments bookmarks].
      repeat split.
      * apply Forall_app. split.
        -- eapply refs_mono; [|exact Hl].
           intros id Hid. now rewrite tbl_has_patch by reflexivity.
        -- constructor; [|constructor]. cbn [Like.postId].
           rewrite tbl_has_patch by reflexivity.
           now apply (tbl_get_has Post._id postId (posts w) post).
      * eapply refs_mono; [|exact Hc].
        intros id Hid. now rewrite tbl_has_patch by reflexivity.
      * eapply refs_mono; [|exact Hb].
        intros id Hid. now rewrite tbl_has_patch by reflexivity.
  - intros postId [] w' Hrun.
    apply deletePost_returned_inv in Hrun; [|exact Hwf].
    destruct Hrun as (u & post & _ & _ & _ & _ & ->).
    unfold references_posts, after_delete.
    cbn [posts likes comments bookmarks].
    repeat split; now apply refs_after_cascade.
Qed.

Lemma sample_references_posts : references_posts Sample.world.
Proof. unfold references_posts. simpl. repeat constructor. Qed.

Lemma references_posts_preserved_witness :
  (forall caption storageId postId w',
      createPost caption storageId Sample.world = (Returned postId, w') ->
      references_posts w') /\
  (forall postId r w',
      toggleLike postId Sample.world = (Returned r, w') ->
      references_posts w') /\
  (forall postId r w',
      deletePost postId Sample.world = (Returned r, w') ->
      references_posts w').
Proof.
  apply (references_posts_preserved Sample.world).
  - exact sample_wf.
  - exact sample_references_posts.
Defined.

(** ** Notifications outlive the Like *)

(** X16.  When a caller who is not the owner and holds no Like for the
    post likes it and then withdraws the Like, the Like is gone but the
    "like" notification stays: unliking inserts no notification and
    removes none. *)
Theorem unlike_keeps_notification
    (w : World) (u : User.t) (postId : Id) (post : Post.t) :
  authenticated u w ->
  tbl_get Post._id postId (posts w) = Some post ->
  User._id u <> Post.userId post ->
  find (like_matches (User._id u) postId) (likes w) = None ->
  exists w1 w2,
    toggleLike postId w = (Returned true, w1) /\
    toggleLike postId w1 = (Returned false, w2) /\
    like_exists (User._id u) postId w2 = false /\
    notifications w2
    = (notifications w
       ++ [Notification.mk (S (next_id w)) (Post.userId post) (User._id u)
             "like" postId])%list.
Proof.
  intros Hauth Hpost Hne He.
  set (w1 := after_like postId u post w).
  set (new := Like.mk (next_id w) (User._id u) postId).
  assert (Hauth1 : authenticated u w1)
    by (apply (authenticated_frame u w); auto).
  assert (Hpost1 : tbl_get Post._id postId (posts w1)
                   = Some (Post.set_likes (Post.likes post + 1) post))
    by (apply post_likes_patch; exact Hpost).
  assert (He1 : find (like_matches (User._id u) postId) (likes w1)
                = Some new)
    by (apply find_app_none; [exact He | apply like_matches_new]).
  exists w1,
    (after_unlike postId new (Post.set_likes (Post.likes post + 1) post) w1).
  split; [now apply toggleLike_like_run|].
  split; [now apply (toggleLike_unlike_run w1 u)|].
  split.
  - unfold like_exists. simpl. unfold tbl_remove.
    rewrite filter_app. simpl. rewrite Nat.eqb_refl. simpl.
    rewrite app_nil_r. now rewrite (find_none_filter _ _ _ He).
  - unfold after_unlike. cbn [notifications]. unfold w1, after_like.
    cbn [notifications]. apply Nat.eqb_neq in Hne. now rewrite Hne.
Qed.

Lemma unlike_keeps_notification_witness :
  exists w1 w2,
    toggleLike 8 Sample.world = (Returned true, w1) /\
    toggleLike 8 w1 = (Returned false, w2) /\
    like_exists 1 8 w2 = false /\
    notifications w2 = [Notification.mk 12 2 1 "like" 8].
Proof.
  apply (unlike_keeps_notification Sample.world Sample.alice 8
           Sample.harbour).
  - reflexivity.
  - reflexivity.
  - simpl. lia.
  - reflexivity.
Defined.
